(** * aioquic_mutator: the mutation descriptor validator and the mutation engine

    A shallow embedding of [src/mutator/mutator.py]: the vocabulary tables,
    [Mutator.parse_mutation_params] and the two engine methods
    [Mutator.mutate_client_hello] / [Mutator.mutate_server_hello], with the
    Python behaviour of the dynamic operations they use (subscripting, [.get],
    [in], [==], [hasattr], [setattr]) written out, exceptions included. *)

From Stdlib Require Import ZArith.
From stdpp Require Import gmap strings list fin_maps.

Open Scope string_scope.

(** ** Python values *)

(** The objects that reach the module: what [json.loads] builds ([None],
    [bool], [int], [str], [list], [dict] with string keys) and [bytes], which
    the handshake messages hold.  JSON reals are left out: the module only
    ever compares a value with a string, so a real behaves like an [int]. *)
#[warnings="-register-all"]
Inductive value : Type :=
  | VNone
  | VBool (b : bool)
  | VInt (n : Z)
  | VStr (s : string)
  | VBytes (b : list Byte.byte)
  | VList (l : list value)
  | VDict (d : gmap string value).

(** ** Exceptions *)

(** [json.JSONDecodeError(msg, doc, pos)]. *)
Record decode_error : Type := DecodeError {
  de_msg : string;
  de_doc : string;
  de_pos : Z
}.

(** The exceptions the module can raise.  [ValueError] and [KeyError] carry
    their argument; the texts of [TypeError] and [AttributeError] depend on
    the interpreter version and are not recorded. *)
Inductive exception : Type :=
  | ValueError (msg : string)
  | JSONDecodeError (e : decode_error)
  | TypeError
  | AttributeError
  | KeyError (key : value).

Inductive exc_class : Type :=
  | cls_Exception
  | cls_ValueError
  | cls_JSONDecodeError
  | cls_TypeError
  | cls_AttributeError
  | cls_LookupError
  | cls_KeyError.

Definition type_of (e : exception) : exc_class :=
  match e with
  | ValueError _ => cls_ValueError
  | JSONDecodeError _ => cls_JSONDecodeError
  | TypeError => cls_TypeError
  | AttributeError => cls_AttributeError
  | KeyError _ => cls_KeyError
  end.

(** The direct base class ([class JSONDecodeError(ValueError)],
    [class KeyError(LookupError)]). *)
Definition base (c : exc_class) : option exc_class :=
  match c with
  | cls_Exception => None
  | cls_JSONDecodeError => Some cls_ValueError
  | cls_KeyError => Some cls_LookupError
  | cls_ValueError | cls_TypeError | cls_AttributeError | cls_LookupError =>
      Some cls_Exception
  end.

Definition exc_class_eqb (c d : exc_class) : bool :=
  match c, d with
  | cls_Exception, cls_Exception
  | cls_ValueError, cls_ValueError
  | cls_JSONDecodeError, cls_JSONDecodeError
  | cls_TypeError, cls_TypeError
  | cls_AttributeError, cls_AttributeError
  | cls_LookupError, cls_LookupError
  | cls_KeyError, cls_KeyError => true
  | _, _ => false
  end.

(** [issubclass c d], following [base] upwards; the hierarchy is three deep. *)
Fixpoint issubclass_fuel (n : nat) (c d : exc_class) : bool :=
  exc_class_eqb c d ||
  match n, base c with
  | S n', Some b => issubclass_fuel n' b d
  | _, _ => false
  end.

Definition issubclass : exc_class → exc_class → bool := issubclass_fuel 3.

(** [isinstance(e, c)]: what an [except c] clause catches. *)
Definition isinstance (e : exception) (c : exc_class) : bool :=
  issubclass (type_of e) c.

(** [str(e)] for the two exceptions that carry a text: the message of a
    [ValueError], and for a [JSONDecodeError] the decoder's message (Python
    appends the line and column, computed from [doc] and [pos]). *)
Definition exc_msg (e : exception) : option string :=
  match e with
  | ValueError msg => Some msg
  | JSONDecodeError d => Some (de_msg d)
  | _ => None
  end.

(** ** The error monad of the validator *)

Inductive result (A : Type) : Type :=
  | Ok (a : A)
  | Raise (e : exception).
Arguments Ok {A} a.
Arguments Raise {A} e.

Definition bind {A B : Type} (r : result A) (k : A → result B) : result B :=
  match r with
  | Ok a => k a
  | Raise e => Raise e
  end.

Notation "'let!' x ':=' c 'in' k" := (bind c (fun x => k))
  (at level 10, x name, c at level 100, k at level 200, only parsing).
Notation "'run!' c 'in' k" := (bind c (fun _ => k))
  (at level 10, c at level 100, k at level 200, only parsing).

(** [for x in l: f x], stopping at the first exception. *)
Fixpoint for_each {A : Type} (f : A → result unit) (l : list A) : result unit :=
  match l with
  | [] => Ok tt
  | x :: l' => run! f x in for_each f l'
  end.

(** ** Dynamic operations on values *)

(** [v == s] for a [str] constant [s]: only an equal [str] compares equal. *)
Definition py_eq_str (v : value) (s : string) : bool :=
  match v with
  | VStr t => bool_decide (t = s)
  | _ => false
  end.

(** [v[k]] for a [str] key [k]: a [dict] looks the key up ([KeyError] when it
    is missing); [None] and numbers are not subscriptable, and [str], [bytes]
    and [list] only take integer indices. *)
Definition py_getitem (v : value) (k : string) : result value :=
  match v with
  | VDict d => match d !! k with
               | Some x => Ok x
               | None => Raise (KeyError (VStr k))
               end
  | _ => Raise TypeError
  end.

(** [v.get(k, dflt)]: only a [dict] has the method. *)
Definition py_get (v : value) (k : string) (dflt : value) : result value :=
  match v with
  | VDict d => Ok (default dflt (d !! k))
  | _ => Raise AttributeError
  end.

Fixpoint is_prefix (p s : string) : bool :=
  match p, s with
  | EmptyString, _ => true
  | String a p', String b s' => bool_decide (a = b) && is_prefix p' s'
  | String _ _, EmptyString => false
  end.

(** [p in s] on two [str]: [p] occurs in [s] as a substring. *)
Fixpoint is_substring (p s : string) : bool :=
  is_prefix p s ||
  match s with
  | EmptyString => false
  | String _ s' => is_substring p s'
  end.

(** [k in v] for a [str] [k]: key membership on a [dict], element equality
    on a [list], substring on a [str]; [bytes] refuses a [str] operand, and
    [None] and numbers are not containers. *)
Definition py_contains (v : value) (k : string) : result bool :=
  match v with
  | VDict d => Ok (bool_decide (is_Some (d !! k)))
  | VList l => Ok (existsb (fun x => py_eq_str x k) l)
  | VStr s => Ok (is_substring k s)
  | _ => Raise TypeError
  end.

(** [v in l] for a list [l] of [str] constants: [v == s] for some [s] of [l]. *)
Definition py_in_list (v : value) (l : list string) : bool :=
  existsb (py_eq_str v) l.

(** [hash(v)] succeeds: [list] and [dict] are unhashable. *)
Definition hashable (v : value) : bool :=
  match v with
  | VList _ | VDict _ => false
  | _ => true
  end.

(** [v in d.keys()] and [d[v]] on a [dict] [d] with [str] keys: the key is
    hashed first ([TypeError] on an unhashable one). *)
Definition py_in_keys {A : Type} (v : value) (d : gmap string A) : result bool :=
  match v with
  | VStr s => Ok (bool_decide (is_Some (d !! s)))
  | _ => if hashable v then Ok false else Raise TypeError
  end.

Definition py_dict_getitem {A : Type} (d : gmap string A) (v : value) : result A :=
  match v with
  | VStr s => match d !! s with
              | Some x => Ok x
              | None => Raise (KeyError v)
              end
  | _ => if hashable v then Raise (KeyError v) else Raise TypeError
  end.

(** [for x in v]: the elements of a [list], the keys of a [dict] (in the
    order the map lists them), the characters of a [str], the bytes of a
    [bytes]; nothing else iterates. *)
Definition py_iter (v : value) : result (list value) :=
  match v with
  | VList l => Ok l
  | VDict d => Ok ((fun kv => VStr kv.1) <$> map_to_list d)
  | VStr s => Ok ((fun c => VStr (String c EmptyString)) <$> String.list_ascii_of_string s)
  | VBytes b => Ok ((fun c => VInt (Z.of_N (Byte.to_N c))) <$> b)
  | _ => Raise TypeError
  end.

(** ** The vocabulary (lines 3-31) *)

Definition MUTATIONS_FORMAT : gmap string (list string) :=
  {[ "identity" := [];
     "remove_field" := ["field_name"];
     "modify_field" := ["field_name"; "new_value"];
     "send_additional_packet" := ["packet_type"; "packet_content"] ]}.

Definition ALLOWED_PACKET_TYPES : list string :=
  [ "ClientHello";
    "ServerHello" ].

Definition ALLOWED_FIELD_NAMES : list string :=
  [ "random";
    "legacy_session_id";
    "cipher_suites";
    "legacy_compression_methods";
    "alpn_protocols";
    "early_data";
    "key_share";
    "pre_shared_key";
    "psk_key_exchange_modes";
    "server_name";
    "signature_algorithms";
    "supported_groups";
    "supported_versions";
    "other_extensions" ].

(** ** The validator: [Mutator.parse_mutation_params] (lines 107-155) *)

Section Validator.

(** [json.loads] applied to a [str]: the decoded value, or the
    [JSONDecodeError] it raises.  The decoder belongs to Python's library
    and is taken as given. *)
Variable json_loads : string → decode_error + value.

(** The text an f-string puts for [{v}], that is [format(v, "")]. *)
Variable format : value → string.

(** Lines 143-148, the body of [for field in required_fields].  In
    [a and b] the operand [b] is evaluated only when [a] holds. *)
Definition check_required_field (mutation_type fields : value) (field : string)
    : result unit :=
  let! present := py_contains fields field in
  if negb present then
    Raise (ValueError ("Missing required field '" ++ field
                       ++ "' for mutation type '" ++ format mutation_type ++ "'"))
  else
  let! bad_field_name :=
    (if bool_decide (field = "field_name") then
       let! x := py_getitem fields field in
       Ok (negb (py_in_list x ALLOWED_FIELD_NAMES))
     else Ok false) in
  if bad_field_name then
    let! x := py_getitem fields field in
    Raise (ValueError ("Invalid field name: " ++ format x))
  else
  let! bad_packet_type :=
    (if bool_decide (field = "packet_type") then
       let! x := py_getitem fields field in
       Ok (negb (py_in_list x ALLOWED_PACKET_TYPES))
     else Ok false) in
  if bad_packet_type then
    let! x := py_getitem fields field in
    Raise (ValueError ("Invalid packet type: " ++ format x))
  else Ok tt.

(** Lines 131-152, the body of [for mutation in param_json] up to the
    descriptor it appends. *)
Definition parse_entry (mutation : value) : result value :=
  let mutation_params : gmap string value := ∅ in
  let! mutation_type := py_get mutation "mutation" VNone in
  let! target := py_get mutation "target" VNone in
  let! fields := py_get mutation "fields" (VDict ∅) in
  let! known := py_in_keys mutation_type MUTATIONS_FORMAT in
  if negb known then
    Raise (ValueError ("Invalid mutation type: " ++ format mutation_type))
  else
  if negb (py_in_list target ["client"; "server"]) then
    Raise (ValueError ("Invalid target: " ++ format target))
  else
  let! required_fields := py_dict_getitem MUTATIONS_FORMAT mutation_type in
  run! for_each (check_required_field mutation_type fields) required_fields in
  let mutation_params := <["mutation_type" := mutation_type]> mutation_params in
  let mutation_params := <["target" := target]> mutation_params in
  let mutation_params := <["fields" := fields]> mutation_params in
  Ok (VDict mutation_params).

(** The loop of lines 130-153, with [mutation_list] as accumulator. *)
Fixpoint parse_loop (param_json : list value) (mutation_list : list value)
    : result (list value) :=
  match param_json with
  | [] => Ok mutation_list
  | mutation :: rest =>
      let! mutation_params := parse_entry mutation in
      parse_loop rest (mutation_list ++ [mutation_params])
  end.

Definition parse_mutation_params (param_str : string) : result (list value) :=
  match json_loads param_str with
  | inl e => Raise (JSONDecodeError e)
  | inr param_json =>
      let mutation_list := [] in
      let! items := py_iter param_json in
      parse_loop items mutation_list
  end.

End Validator.

(** ** The engine: [mutate_client_hello] and [mutate_server_hello] *)

(** A handshake message ([aioquic.tls.ClientHello] / [ServerHello], plain
    dataclasses of the handshake library) is seen through its fields: the
    map from each field name the object has to its value, which is what the
    instance keeps in its attribute dictionary.  Attributes that only the
    class provides (its methods) are not part of the map, and the statements
    about a named field below are about field names. *)
Abbreviation message := (gmap string value).

(** The engine updates the message in place, so what it did before an
    exception stays done: a computation takes the message and gives the
    outcome together with the message as it then is. *)
Definition engine (A : Type) : Type := message → result A * message.

Definition ret {A : Type} (a : A) : engine A := fun m => (Ok a, m).

Definition lift {A : Type} (r : result A) : engine A := fun m => (r, m).

Definition ebind {A B : Type} (c : engine A) (k : A → engine B) : engine B :=
  fun m =>
    match c m with
    | (Ok a, m') => k a m'
    | (Raise e, m') => (Raise e, m')
    end.

Notation "'do!' x ':=' c 'in' k" := (ebind c (fun x => k))
  (at level 10, x name, c at level 100, k at level 200, only parsing).
Notation "'exec!' c 'in' k" := (ebind c (fun _ => k))
  (at level 10, c at level 100, k at level 200, only parsing).

(** Besides its fields, every instance of a plain class has three
    attributes that are not bound like a field: its class, its attribute
    dictionary and its weak-reference slot. *)
Definition special_attributes : list string :=
  ["__class__"; "__dict__"; "__weakref__"].

(** [hasattr(obj, name)]: the name must be a [str]; the answer is [True] for
    a field the object has and for the three special attributes. *)
Definition hasattr (name : value) : engine bool :=
  fun m =>
    match name with
    | VStr s =>
        (Ok (bool_decide (s ∈ special_attributes) || bool_decide (is_Some (m !! s))), m)
    | _ => (Raise TypeError, m)
    end.

(** [setattr(obj, name, v)]: a field name is bound to [v] and nothing else
    changes.  The special attributes are not bound: [__class__] takes only a
    class, which no value here is ([TypeError]); [__weakref__] cannot be
    written ([AttributeError]); [__dict__] takes only a [dict]
    ([TypeError] otherwise), and that dict then is the attribute dictionary,
    so every field the object had is replaced by the entries of the dict
    (the map keeps the entries by value and records no default a class may
    give to a field). *)
Definition setattr (name : value) (v : value) : engine unit :=
  fun m =>
    match name with
    | VStr s =>
        if bool_decide (s = "__class__") then (Raise TypeError, m)
        else if bool_decide (s = "__weakref__") then (Raise AttributeError, m)
        else if bool_decide (s = "__dict__") then
          match v with
          | VDict d => (Ok tt, d)
          | _ => (Raise TypeError, m)
          end
        else (Ok tt, <[s := v]> m)
    | _ => (Raise TypeError, m)
    end.

(** [for x in l: f x] in the engine. *)
Fixpoint for_each_e {A : Type} (f : A → engine unit) (l : list A) : engine unit :=
  match l with
  | [] => ret tt
  | x :: l' => exec! f x in for_each_e f l'
  end.

Record Mutator : Type := { mutation_params : list value }.

(** Lines 62-81.  The method returns the reference it was given; the result
    here is the outcome and the message behind that reference. *)
Definition mutate_client_hello (self : Mutator) : engine unit :=
  for_each_e (fun mutation =>
    do! target := lift (py_getitem mutation "target") in
    if negb (py_eq_str target "client") then
      ret tt
    else
    do! mutation_type := lift (py_getitem mutation "mutation_type") in
    do! fields := lift (py_getitem mutation "fields") in
    exec! (if py_eq_str mutation_type "remove_field" then
             do! field_name := lift (py_getitem fields "field_name") in
             do! exposed := hasattr field_name in
             if exposed then setattr field_name VNone else ret tt
           else if py_eq_str mutation_type "modify_field" then
             do! field_name := lift (py_getitem fields "field_name") in
             do! new_value := lift (py_getitem fields "new_value") in
             do! exposed := hasattr field_name in
             if exposed then setattr field_name new_value else ret tt
           else ret tt) in
    if py_eq_str mutation_type "identity" then
      ret tt
    else ret tt)
  (mutation_params self).

(** Lines 87-105. *)
Definition mutate_server_hello (self : Mutator) : engine unit :=
  for_each_e (fun mutation =>
    do! target := lift (py_getitem mutation "target") in
    if negb (py_eq_str target "server") then
      ret tt
    else
    do! mutation_type := lift (py_getitem mutation "mutation_type") in
    do! fields := lift (py_getitem mutation "fields") in
    exec! (if py_eq_str mutation_type "remove_field" then
             do! field_name := lift (py_getitem fields "field_name") in
             do! exposed := hasattr field_name in
             if exposed then setattr field_name VNone else ret tt
           else if py_eq_str mutation_type "modify_field" then
             do! field_name := lift (py_getitem fields "field_name") in
             do! new_value := lift (py_getitem fields "new_value") in
             do! exposed := hasattr field_name in
             if exposed then setattr field_name new_value else ret tt
           else ret tt) in
    if py_eq_str mutation_type "identity" then
      ret tt
    else ret tt)
  (mutation_params self).

(** ** Running the engine: one descriptor at a time *)

(** The loop body the two methods share, with the role's name left open. *)
Definition mutate_body (role : string) (mutation : value) : engine unit :=
  do! target := lift (py_getitem mutation "target") in
  if negb (py_eq_str target role) then
    ret tt
  else
  do! mutation_type := lift (py_getitem mutation "mutation_type") in
  do! fields := lift (py_getitem mutation "fields") in
  exec! (if py_eq_str mutation_type "remove_field" then
           do! field_name := lift (py_getitem fields "field_name") in
           do! exposed := hasattr field_name in
           if exposed then setattr field_name VNone else ret tt
         else if py_eq_str mutation_type "modify_field" then
           do! field_name := lift (py_getitem fields "field_name") in
           do! new_value := lift (py_getitem fields "new_value") in
           do! exposed := hasattr field_name in
           if exposed then setattr field_name new_value else ret tt
         else ret tt) in
  if py_eq_str mutation_type "identity" then
    ret tt
  else ret tt.

(** Lines 70-71 and 75-76 with the name a [str]: bind the attribute if the
    object has it. *)
Definition assign (name : string) (v : value) : engine unit :=
  do! exposed := hasattr (VStr name) in
  if exposed then setattr (VStr name) v else ret tt.

(** ** What the claims say about a message *)

(** The message has the field [name], so that [hasattr] answers [True]. *)
Definition exposes (m : message) (name : string) : Prop := is_Some (m !! name).

(** Every field but [name] reads the same in [m'] as in [m]. *)
Definition others_unchanged (name : string) (m m' : message) : Prop :=
  ∀ other : string, other ≠ name → m' !! other = m !! other.

(** The engine can take the descriptor: its step raises nothing, in either
    call and on any message. *)
Definition engine_ready (d : value) : Prop :=
  ∀ (role : string) (m : message), ∃ m', mutate_body role d m = (Ok tt, m').

(** ** The validation rules as the specification words them *)

(** The specification's reading of the validator, kept apart from the code
    above: its vocabulary (data model), its ordered checks and its fail-fast
    policy.  The theorems below compare [parse_mutation_params] with it. *)
Module Spec.

Definition MutationKind : list string :=
  ["identity"; "remove_field"; "modify_field"; "send_additional_packet"].

(** The required parameters of each kind, in declared order. *)
Definition required (kind : string) : list string :=
  if bool_decide (kind = "identity") then []
  else if bool_decide (kind = "remove_field") then ["field_name"]
  else if bool_decide (kind = "modify_field") then ["field_name"; "new_value"]
  else if bool_decide (kind = "send_additional_packet")
       then ["packet_type"; "packet_content"]
  else [].

Definition Target : list string := ["client"; "server"].

Definition FieldName : list string :=
  ["random"; "legacy_session_id"; "cipher_suites"; "legacy_compression_methods";
   "alpn_protocols"; "early_data"; "key_share"; "pre_shared_key";
   "psk_key_exchange_modes"; "server_name"; "signature_algorithms";
   "supported_groups"; "supported_versions"; "other_extensions"].

Definition PacketType : list string := ["ClientHello"; "ServerHello"].

(** An entry of the wire format: its mutation value, its target value and
    its fields object. *)
Record entry : Type := Entry {
  e_mutation : value;
  e_target : value;
  e_fields : gmap string value
}.

(** The value [v] is one of the names of [names]. *)
Definition member (v : value) (names : list string) : bool :=
  match v with
  | VStr s => bool_decide (s ∈ names)
  | _ => false
  end.

(** The checks of one entry. *)
Inductive check : Type :=
  | KindMembership
  | TargetMembership
  | Presence (p : string)
  | EnumMembership (p : string).

(** The error taxonomy, less the malformed encoding. *)
Inductive cause : Type :=
  | UnknownKind (v : value)
  | UnknownTarget (v : value)
  | MissingParameter (p : string) (kind : value)
  | FieldNameOutside (v : value)
  | PacketTypeOutside (v : value).

(** Validation order: kind membership, then target membership, then for each
    required parameter, in the kind's declared order, its presence and its
    enum membership. *)
Definition checks_of (e : entry) : list check :=
  KindMembership :: TargetMembership ::
  flat_map (fun p => [Presence p; EnumMembership p])
           (match e_mutation e with
            | VStr kind => required kind
            | _ => []
            end).

(** The violation a check finds on an entry, if any. *)
Definition violation (e : entry) (c : check) : option cause :=
  match c with
  | KindMembership =>
      if member (e_mutation e) MutationKind then None
      else Some (UnknownKind (e_mutation e))
  | TargetMembership =>
      if member (e_target e) Target then None
      else Some (UnknownTarget (e_target e))
  | Presence p =>
      match e_fields e !! p with
      | Some _ => None
      | None => Some (MissingParameter p (e_mutation e))
      end
  | EnumMembership p =>
      match e_fields e !! p with
      | Some v =>
          if bool_decide (p = "field_name") && negb (member v FieldName)
          then Some (FieldNameOutside v)
          else if bool_decide (p = "packet_type") && negb (member v PacketType)
          then Some (PacketTypeOutside v)
          else None
      | None => None
      end
  end.

(** The first failing check decides; later ones are not consulted. *)
Fixpoint first_violation (e : entry) (cs : list check) : option cause :=
  match cs with
  | [] => None
  | c :: cs' =>
      match violation e c with
      | Some x => Some x
      | None => first_violation e cs'
      end
  end.

(** A valid entry: none of its checks fails. *)
Definition valid (e : entry) : bool :=
  forallb (fun c => bool_decide (violation e c = None)) (checks_of e).

(** The descriptor of an entry: its kind, its target and its whole fields
    mapping. *)
Definition descriptor_of (e : entry) : value :=
  VDict (<["fields" := VDict (e_fields e)]>
           (<["target" := e_target e]>
              (<["mutation_type" := e_mutation e]> ∅))).

(** Fail fast: the first violation of the first invalid entry aborts the
    parse; otherwise every entry gives its descriptor, in order. *)
Fixpoint parse (es : list entry) : cause + list value :=
  match es with
  | [] => inr []
  | e :: rest =>
      match first_violation e (checks_of e) with
      | Some x => inl x
      | None =>
          match parse rest with
          | inl x => inl x
          | inr ds => inr (descriptor_of e :: ds)
          end
      end
  end.

End Spec.

(** How a JSON value is read as an entry of the wire format: an object whose
    ["mutation"] is not itself a list or an object, and whose ["fields"], when
    given, is an object (an absent key reads as [None], absent fields as the
    empty object).  Nothing else is an entry. *)
Definition entry_of (v : value) : option Spec.entry :=
  match v with
  | VDict ed =>
      let mutation := default VNone (ed !! "mutation") in
      match hashable mutation, default (VDict ∅) (ed !! "fields") with
      | true, VDict fields =>
          Some (Spec.Entry mutation (default VNone (ed !! "target")) fields)
      | _, _ => None
      end
  | _ => None
  end.

(** The exception the validator raises for each cause (lines 136-148). *)
Definition InvalidMutationSpec (format : value → string) (c : Spec.cause) : exception :=
  match c with
  | Spec.UnknownKind v => ValueError ("Invalid mutation type: " ++ format v)
  | Spec.UnknownTarget v => ValueError ("Invalid target: " ++ format v)
  | Spec.MissingParameter p kind =>
      ValueError ("Missing required field '" ++ p
                  ++ "' for mutation type '" ++ format kind ++ "'")
  | Spec.FieldNameOutside v => ValueError ("Invalid field name: " ++ format v)
  | Spec.PacketTypeOutside v => ValueError ("Invalid packet type: " ++ format v)
  end.

Definition as_result {A : Type} (format : value → string) (r : Spec.cause + A) : result A :=
  match r with
  | inl c => Raise (InvalidMutationSpec format c)
  | inr a => Ok a
  end.

(** Two entries agree on what their kind makes the validator read: the
    mutation, the target, and the value of every parameter the kind
    requires.  Their other fields may differ. *)
Definition agree_on_required (e1 e2 : Spec.entry) : Prop :=
  Spec.e_mutation e1 = Spec.e_mutation e2 ∧
  Spec.e_target e1 = Spec.e_target e2 ∧
  ∀ (kind : string) (req : list string) (p : string),
    Spec.e_mutation e1 = VStr kind →
    MUTATIONS_FORMAT !! kind = Some req →
    p ∈ req →
    Spec.e_fields e1 !! p = Spec.e_fields e2 !! p.

(** The claim C6 as it is stated: an entry that supplies a ["field_name"]
    outside the field names, or a ["packet_type"] outside the packet types,
    makes the parse fail with a [ValueError], whatever its kind. *)
Definition rejects_every_supplied_bad_enum
    (json_loads : string → decode_error + value) (format : value → string) : Prop :=
  ∀ (param_str : string) (entries : list value) (ed fields : gmap string value),
    json_loads param_str = inr (VList entries) →
    VDict ed ∈ entries →
    ed !! "fields" = Some (VDict fields) →
    (∃ v, fields !! "field_name" = Some v ∧ py_in_list v ALLOWED_FIELD_NAMES = false) ∨
    (∃ v, fields !! "packet_type" = Some v ∧ py_in_list v ALLOWED_PACKET_TYPES = false) →
    ∃ msg, parse_mutation_params json_loads format param_str = Raise (ValueError msg).

(** ** Sample data *)

(** A descriptor as the validator builds it. *)
Definition descriptor (mutation_type target : string) (fields : gmap string value) : value :=
  VDict (<["fields" := VDict fields]>
           (<["target" := VStr target]>
              (<["mutation_type" := VStr mutation_type]> ∅))).

(** An entry of the wire format, keyed ["mutation"]. *)
Definition wire_entry (mutation target : string) (fields : gmap string value) : value :=
  VDict {[ "mutation" := VStr mutation;
           "target" := VStr target;
           "fields" := VDict fields ]}.

(** A [ClientHello] by its attributes (the fields of the dataclass in
    [aioquic/tls.py]), with ALPN set. *)
Definition sample_client_hello : message :=
  list_to_map
    [ ("random", VBytes [Byte.x01; Byte.x02]);
      ("legacy_session_id", VBytes []);
      ("cipher_suites", VList [VInt 4865]);
      ("legacy_compression_methods", VList [VInt 0]);
      ("alpn_protocols", VList [VStr "h3"]);
      ("early_data", VBool false);
      ("key_share", VNone);
      ("pre_shared_key", VNone);
      ("psk_key_exchange_modes", VNone);
      ("server_name", VStr "example.org");
      ("signature_algorithms", VList [VInt 2052]);
      ("supported_groups", VList [VInt 29]);
      ("supported_versions", VList [VInt 772]);
      ("other_extensions", VList []) ].

(** A [ServerHello] by its attributes: it has no [cipher_suites], no
    [alpn_protocols] and no [server_name]. *)
Definition sample_server_hello : message :=
  {[ "random" := VBytes [Byte.x03; Byte.x04];
     "legacy_session_id" := VBytes [];
     "cipher_suite" := VInt 4865;
     "compression_method" := VInt 0;
     "key_share" := VNone;
     "pre_shared_key" := VNone;
     "supported_version" := VInt 772;
     "other_extensions" := VList [] ]}.

(** The two descriptors of the module's own test text (lines 159-177), and
    two more: an [identity] one and one of a kind the engine does not know. *)
Definition remove_alpn : value :=
  descriptor "remove_field" "client" {[ "field_name" := VStr "alpn_protocols" ]}.

Definition modify_random : value :=
  descriptor "modify_field" "server"
    {[ "field_name" := VStr "random"; "new_value" := VStr "deadbeef" ]}.

Definition modify_cipher_suites : value :=
  descriptor "modify_field" "client"
    {[ "field_name" := VStr "cipher_suites"; "new_value" := VList [VInt 4866] ]}.

Definition remove_server_name : value :=
  descriptor "remove_field" "server" {[ "field_name" := VStr "server_name" ]}.

Definition identity_client : value := descriptor "identity" "client" ∅.

Definition send_packet_server : value :=
  descriptor "send_additional_packet" "server"
    {[ "packet_type" := VStr "ServerHello"; "packet_content" := VStr "00" ]}.

(** Mutation-list texts, written with [dq] for the double quote. *)
Definition dq : string := String (Ascii.ascii_of_nat 34) EmptyString.

Definition quoted (s : string) : string := dq ++ s ++ dq.

Definition member_text (key text : string) : string := quoted key ++ ":" ++ text.

Definition entry_text (mutation target fields_text : string) : string :=
  "{" ++ member_text "mutation" (quoted mutation) ++ ","
      ++ member_text "target" (quoted target) ++ ","
      ++ member_text "fields" fields_text ++ "}".

(** The scenario of the specification: remove ALPN from the client's hello,
    set the server's random. *)
Definition scenario_text : string :=
  "[" ++ entry_text "remove_field" "client"
           ("{" ++ member_text "field_name" (quoted "alpn_protocols") ++ "}")
      ++ ", "
      ++ entry_text "modify_field" "server"
           ("{" ++ member_text "field_name" (quoted "random") ++ ","
                ++ member_text "new_value" (quoted "deadbeef") ++ "}")
      ++ "]".

Definition scenario_json : value :=
  VList [ wire_entry "remove_field" "client" {[ "field_name" := VStr "alpn_protocols" ]};
          wire_entry "modify_field" "server"
            {[ "field_name" := VStr "random"; "new_value" := VStr "deadbeef" ]} ].

(** An [identity] entry that also carries a field name outside the
    vocabulary. *)
Definition stray_field_name_text : string :=
  "[" ++ entry_text "identity" "client"
           ("{" ++ member_text "field_name" (quoted "not_a_real_field") ++ "}")
      ++ "]".

Definition stray_field_name_json : value :=
  VList [ wire_entry "identity" "client" {[ "field_name" := VStr "not_a_real_field" ]} ].

(** A [remove_field] entry with the same field name. *)
Definition bad_field_name_text : string :=
  "[" ++ entry_text "remove_field" "client"
           ("{" ++ member_text "field_name" (quoted "not_a_real_field") ++ "}")
      ++ "]".

Definition bad_field_name_json : value :=
  VList [ wire_entry "remove_field" "client" {[ "field_name" := VStr "not_a_real_field" ]} ].

(** A valid entry, then one wrong in its kind, its target and its fields at
    once, then one wrong in its packet type. *)
Definition several_errors_text : string :=
  "[" ++ entry_text "identity" "server" "{}" ++ ","
      ++ entry_text "bogus" "peer"
           ("{" ++ member_text "field_name" (quoted "not_a_real_field") ++ "}") ++ ","
      ++ entry_text "send_additional_packet" "client"
           ("{" ++ member_text "packet_type" (quoted "HelloRetry") ++ "}")
      ++ "]".

Definition several_errors_json : value :=
  VList [ wire_entry "identity" "server" ∅;
          wire_entry "bogus" "peer" {[ "field_name" := VStr "not_a_real_field" ]};
          wire_entry "send_additional_packet" "client"
            {[ "packet_type" := VStr "HelloRetry" ]} ].

Definition truncated_text : string := "[{" ++ quoted "mutation" ++ ":".

(** A decoder that knows the texts above and rejects every other text: it
    stands for [json.loads] where a concrete run is shown. *)
Definition sample_documents : gmap string value :=
  {[ scenario_text := scenario_json;
     stray_field_name_text := stray_field_name_json;
     bad_field_name_text := bad_field_name_json;
     several_errors_text := several_errors_json ]}.

Definition sample_loads (s : string) : decode_error + value :=
  match sample_documents !! s with
  | Some v => inr v
  | None => inl (DecodeError "Expecting value" s 0)
  end.

(** The text of a value in a message, exact on [str], [None] and [bool]; it
    stands for the f-string interpolation where a concrete run is shown. *)
Definition sample_format (v : value) : string :=
  match v with
  | VStr s => s
  | VNone => "None"
  | VBool true => "True"
  | VBool false => "False"
  | _ => "..."
  end.

(** The entries of [scenario_json], [bad_field_name_json] and
    [several_errors_json], as JSON values and as entries of the wire format. *)
Definition scenario_wire : list value :=
  [ wire_entry "remove_field" "client" {[ "field_name" := VStr "alpn_protocols" ]};
    wire_entry "modify_field" "server"
      {[ "field_name" := VStr "random"; "new_value" := VStr "deadbeef" ]} ].

Definition scenario_entries : list Spec.entry :=
  [ Spec.Entry (VStr "remove_field") (VStr "client")
      {[ "field_name" := VStr "alpn_protocols" ]};
    Spec.Entry (VStr "modify_field") (VStr "server")
      {[ "field_name" := VStr "random"; "new_value" := VStr "deadbeef" ]} ].

Definition bad_field_name_wire : value :=
  wire_entry "remove_field" "client" {[ "field_name" := VStr "not_a_real_field" ]}.

Definition bad_field_name_entry : Spec.entry :=
  Spec.Entry (VStr "remove_field") (VStr "client")
    {[ "field_name" := VStr "not_a_real_field" ]}.

Definition several_errors_wire : list value :=
  [ wire_entry "identity" "server" ∅;
    wire_entry "bogus" "peer" {[ "field_name" := VStr "not_a_real_field" ]};
    wire_entry "send_additional_packet" "client"
      {[ "packet_type" := VStr "HelloRetry" ]} ].

Definition several_errors_entries : list Spec.entry :=
  [ Spec.Entry (VStr "identity") (VStr "server") ∅;
    Spec.Entry (VStr "bogus") (VStr "peer") {[ "field_name" := VStr "not_a_real_field" ]};
    Spec.Entry (VStr "send_additional_packet") (VStr "client")
      {[ "packet_type" := VStr "HelloRetry" ]} ].

(** The first entry of the scenario as the wire format has it, keyed
    ["mutation"]: not a descriptor. *)
Definition raw_remove_alpn : gmap string value :=
  {[ "mutation" := VStr "remove_field";
     "target" := VStr "client";
     "fields" := VDict {[ "field_name" := VStr "alpn_protocols" ]} ]}.

(** ** Further notions about descriptors *)

(** The descriptor is one the engine acts on, and the field it names is
    [name]: its kind is ["remove_field"] or ["modify_field"] and its
    [fields["field_name"]] is [name]. *)
Definition names_field (d : value) (name : string) : Prop :=
  ∃ kind fields,
    py_getitem d "mutation_type" = Ok kind ∧
    (kind = VStr "remove_field" ∨ kind = VStr "modify_field") ∧
    py_getitem d "fields" = Ok fields ∧
    py_getitem fields "field_name" = Ok (VStr name).

(** The descriptor is addressed to [role] and writes [v] to the field
    [name]: a [remove_field] writes [None], a [modify_field] its
    ["new_value"]. *)
Definition writes (role : string) (d : value) (name : string) (v : value) : Prop :=
  ∃ fields,
    py_getitem d "target" = Ok (VStr role) ∧
    py_getitem d "fields" = Ok fields ∧
    py_getitem fields "field_name" = Ok (VStr name) ∧
    ((py_getitem d "mutation_type" = Ok (VStr "remove_field") ∧ v = VNone) ∨
     (py_getitem d "mutation_type" = Ok (VStr "modify_field") ∧
      py_getitem fields "new_value" = Ok v)).

(** The same descriptor addressed to the other role: ["client"] and
    ["server"] are exchanged, anything else is left as it is. *)
Definition retarget (d : value) : value :=
  match d with
  | VDict dm =>
      match dm !! "target" with
      | Some target =>
          if py_eq_str target "client" then VDict (<["target" := VStr "server"]> dm)
          else if py_eq_str target "server" then VDict (<["target" := VStr "client"]> dm)
          else d
      | None => d
      end
  | _ => d
  end.

(** Every field that a descriptor of the list names is one of the allowed
    field names. *)
Definition names_allowed_fields (ds : list value) : Prop :=
  ∀ (d : value) (name : string),
    d ∈ ds → names_field d name → name ∈ ALLOWED_FIELD_NAMES.

(** What the validator guarantees of a descriptor it returns: the three
    keys, a known kind and target, and for each kind its required parameters,
    with the field name or packet type inside its vocabulary. *)
Definition validated (d : value) : Prop :=
  ∃ (kind target : string) (fields : value),
    d = VDict (<["fields" := fields]>
                 (<["target" := VStr target]>
                    (<["mutation_type" := VStr kind]> ∅))) ∧
    (target = "client" ∨ target = "server") ∧
    (kind = "identity" ∨
     (kind = "remove_field" ∧
      ∃ f n, fields = VDict f ∧ f !! "field_name" = Some (VStr n) ∧
             n ∈ ALLOWED_FIELD_NAMES) ∨
     (kind = "modify_field" ∧
      ∃ f n, fields = VDict f ∧ f !! "field_name" = Some (VStr n) ∧
             n ∈ ALLOWED_FIELD_NAMES ∧ is_Some (f !! "new_value")) ∨
     (kind = "send_additional_packet" ∧
      ∃ f t, fields = VDict f ∧ f !! "packet_type" = Some (VStr t) ∧
             t ∈ ALLOWED_PACKET_TYPES ∧ is_Some (f !! "packet_content"))).

(** Two JSON objects read the same by the validator: the same ["mutation"]
    and ["target"] (an absent key reading as [None]) and the same ["fields"]
    (absent fields reading as the empty object). *)
Definition same_reading (ed1 ed2 : gmap string value) : Prop :=
  default VNone (ed1 !! "mutation") = default VNone (ed2 !! "mutation") ∧
  default VNone (ed1 !! "target") = default VNone (ed2 !! "target") ∧
  default (VDict ∅) (ed1 !! "fields") = default (VDict ∅) (ed2 !! "fields").

(** ** The entry point: [main] (lines 157-183) *)

Definition nl : string := String (Ascii.ascii_of_nat 10) EmptyString.

(** The text between the triple quotes of lines 159-177, line by line. *)
Definition test_param_str : string :=
  nl ++
  "    [" ++ nl ++
  "        {" ++ nl ++
  "            " ++ quoted "mutation" ++ ": " ++ quoted "remove_field" ++ "," ++ nl ++
  "            " ++ quoted "target" ++ ": " ++ quoted "client" ++ "," ++ nl ++
  "            " ++ quoted "fields" ++ ": {" ++ nl ++
  "                " ++ quoted "field_name" ++ ": " ++ quoted "alpn_protocols" ++ nl ++
  "            }" ++ nl ++
  "        }," ++ nl ++
  "        {" ++ nl ++
  "            " ++ quoted "mutation" ++ ": " ++ quoted "modify_field" ++ "," ++ nl ++
  "            " ++ quoted "target" ++ ": " ++ quoted "server" ++ ", " ++ nl ++
  "            " ++ quoted "fields" ++ ": {" ++ nl ++
  "                " ++ quoted "field_name" ++ ": " ++ quoted "random" ++ "," ++ nl ++
  "                " ++ quoted "new_value" ++ ": " ++ quoted "deadbeef" ++ nl ++
  "            }" ++ nl ++
  "        }" ++ nl ++
  "    ]" ++ nl ++
  "    ".

Section Main.

Variable json_loads : string → decode_error + value.
Variable format : value → string.

(** [str(e)] of a [JSONDecodeError]: the decoder's message followed by the
    line, column and position, as Python's library formats it. *)
Variable decode_error_text : decode_error → string.

(** The text [{e}] of the exception caught at line 182.  Only instances of
    [ValueError] get there; the other exceptions, whose texts are not
    recorded, never do. *)
Definition exception_text (e : exception) : string :=
  match e with
  | ValueError msg => msg
  | JSONDecodeError d => decode_error_text d
  | _ => ""
  end.

(** [main()]: the lines it prints, and the exception that leaves it, if
    any.  [except ValueError] catches the instances of [ValueError]; anything
    else propagates. *)
Definition main : list string * option exception :=
  match parse_mutation_params json_loads format test_param_str with
  | Ok mutations =>
      let stdout := ["Parsed mutation parameters successfully:"] in
      let mutator := {| mutation_params := mutations |} in
      (stdout, None)
  | Raise e =>
      if isinstance e cls_ValueError
      then (["Error parsing mutation parameters: " ++ exception_text e], None)
      else ([], Some e)
  end.

End Main.

(** A decoder that also knows the text of [main]. *)
Definition demo_loads (s : string) : decode_error + value :=
  if bool_decide (s = test_param_str) then inr scenario_json else sample_loads s.

(** The text of a decoding error, without line and column. *)
Definition sample_decode_error_text (e : decode_error) : string := de_msg e.

(** More sample data: descriptors, entries and decoders of one document. *)
Definition modify_alpn : value :=
  descriptor "modify_field" "client"
    {[ "field_name" := VStr "alpn_protocols"; "new_value" := VList [VStr "h2"] ]}.

Definition modify_without_value : value :=
  descriptor "modify_field" "client" {[ "field_name" := VStr "random" ]}.

(** A decoder that gives [v] for every text. *)
Definition loads_as (v : value) : string → decode_error + value := fun _ => inr v.

Definition identity_numeric_fields : gmap string value :=
  {[ "mutation" := VStr "identity"; "target" := VStr "server"; "fields" := VInt 5 ]}.

Definition remove_string_fields : gmap string value :=
  {[ "mutation" := VStr "remove_field"; "target" := VStr "client";
     "fields" := VStr "no field_name here" ]}.

Definition list_kind_entry : gmap string value :=
  {[ "mutation" := VList [VStr "identity"]; "target" := VStr "client" ]}.

Definition identity_with_comment : gmap string value :=
  {[ "mutation" := VStr "identity"; "target" := VStr "client";
     "comment" := VStr "first step" ]}.

Definition identity_plain : gmap string value :=
  {[ "mutation" := VStr "identity"; "target" := VStr "client"; "fields" := VDict ∅ ]}.

(** Two arrays that differ only in keys their kinds do not require: the
    first holds a field name outside the vocabulary under [identity] and a
    packet type outside the vocabulary under [remove_field]. *)
Definition stray_wire : list value :=
  [ wire_entry "identity" "client" {[ "field_name" := VStr "not_a_real_field" ]};
    wire_entry "remove_field" "client"
      {[ "field_name" := VStr "alpn_protocols"; "packet_type" := VStr "HelloRetry" ]} ].

Definition stray_entries : list Spec.entry :=
  [ Spec.Entry (VStr "identity") (VStr "client")
      {[ "field_name" := VStr "not_a_real_field" ]};
    Spec.Entry (VStr "remove_field") (VStr "client")
      {[ "field_name" := VStr "alpn_protocols"; "packet_type" := VStr "HelloRetry" ]} ].

Definition clean_wire : list value :=
  [ wire_entry "identity" "client" ∅;
    wire_entry "remove_field" "client" {[ "field_name" := VStr "alpn_protocols" ]} ].

Definition clean_entries : list Spec.entry :=
  [ Spec.Entry (VStr "identity") (VStr "client") ∅;
    Spec.Entry (VStr "remove_field") (VStr "client")
      {[ "field_name" := VStr "alpn_protocols" ]} ].

(** A decoder of these two documents. *)
Definition stray_loads (s : string) : decode_error + value :=
  if bool_decide (s = "stray") then inr (VList stray_wire) else inr (VList clean_wire).

Definition remove_class : value :=
  descriptor "remove_field" "client" {[ "field_name" := VStr "__class__" ]}.

(** * Properties *)

(** ** The engine, step by step *)

Lemma mutate_client_hello_body (self : Mutator) :
  mutate_client_hello self = for_each_e (mutate_body "client") (mutation_params self).
Proof. reflexivity. Qed.

Lemma mutate_server_hello_body (self : Mutator) :
  mutate_server_hello self = for_each_e (mutate_body "server") (mutation_params self).
Proof. reflexivity. Qed.

Lemma ebind_lift {A B : Type} (r : result A) (k : A → engine B) (m : message) :
  ebind (lift r) k m = match r with
                       | Ok a => k a m
                       | Raise e => (Raise e, m)
                       end.
Proof. reflexivity. Qed.

Lemma for_each_e_cons {A : Type} (f : A → engine unit) (x : A) (l : list A) (m : message) :
  for_each_e f (x :: l) m = match f x m with
                            | (Ok _, m') => for_each_e f l m'
                            | (Raise e, m') => (Raise e, m')
                            end.
Proof. reflexivity. Qed.

(** Running a list is running its front and then, unless that raised, its
    back on the message the front left. *)
Lemma for_each_e_app {A : Type} (f : A → engine unit) (l1 l2 : list A) (m : message) :
  for_each_e f (l1 ++ l2) m = match for_each_e f l1 m with
                              | (Ok _, m') => for_each_e f l2 m'
                              | (Raise e, m') => (Raise e, m')
                              end.
Proof.
  revert m. induction l1 as [|x l1 IH]; intros m; [reflexivity|].
  rewrite <- app_comm_cons, !for_each_e_cons.
  destruct (f x m) as [[[]|e] m']; [apply IH | reflexivity].
Qed.

Lemma for_each_e_singleton {A : Type} (f : A → engine unit) (x : A) (m : message) :
  for_each_e f [x] m = f x m.
Proof.
  rewrite for_each_e_cons. destruct (f x m) as [[[]|e] m']; reflexivity.
Qed.

(** A descriptor whose step succeeds without touching the message can be
    dropped from any list. *)
Lemma for_each_e_skip {A : Type} (f : A → engine unit) (x : A) :
  (∀ m, f x m = (Ok tt, m)) →
  ∀ (pre post : list A) (m : message),
    for_each_e f (pre ++ x :: post) m = for_each_e f (pre ++ post) m.
Proof.
  intros Hskip pre post m. rewrite !for_each_e_app.
  destruct (for_each_e f pre m) as [[[]|e] m']; [|reflexivity].
  rewrite for_each_e_cons, Hskip. reflexivity.
Qed.

(** The step of a descriptor addressed to the other role. *)
Lemma mutate_body_other_role (role : string) (d target : value) (m : message) :
  py_getitem d "target" = Ok target →
  py_eq_str target role = false →
  mutate_body role d m = (Ok tt, m).
Proof.
  intros Ht Hne. unfold mutate_body. rewrite ebind_lift, Ht, Hne. reflexivity.
Qed.

Lemma mutate_body_other_kind (role : string) (d target kind fields : value) (m : message) :
  py_getitem d "target" = Ok target →
  py_getitem d "mutation_type" = Ok kind →
  py_getitem d "fields" = Ok fields →
  py_eq_str kind "remove_field" = false →
  py_eq_str kind "modify_field" = false →
  mutate_body role d m = (Ok tt, m).
Proof.
  intros Ht Hk Hf Hr Hm. unfold mutate_body.
  rewrite ebind_lift, Ht. destruct (py_eq_str target role); [|reflexivity].
  cbn [negb]. rewrite ebind_lift, Hk, ebind_lift, Hf, Hr, Hm.
  unfold ebind, ret. destruct (py_eq_str kind "identity"); reflexivity.
Qed.

Lemma py_eq_str_true (v : value) (s : string) :
  py_eq_str v s = true ↔ v = VStr s.
Proof.
  destruct v; cbn; try (split; [discriminate|congruence]).
  rewrite bool_decide_eq_true. split; congruence.
Qed.

Lemma py_eq_str_false (v : value) (s : string) :
  v ≠ VStr s → py_eq_str v s = false.
Proof.
  intros Hne. destruct (py_eq_str v s) eqn:E; [|reflexivity].
  apply py_eq_str_true in E. contradiction.
Qed.

Lemma special_attributes_elem (name : string) :
  name ∈ special_attributes ↔
  name = "__class__" ∨ name = "__dict__" ∨ name = "__weakref__".
Proof.
  unfold special_attributes. rewrite !elem_of_cons, elem_of_nil. tauto.
Qed.

(** The allowed field names are field names: none is a special attribute. *)
Lemma allowed_not_special (name : string) :
  name ∈ ALLOWED_FIELD_NAMES → name ∉ special_attributes.
Proof.
  intros Hin Hspecial. apply special_attributes_elem in Hspecial.
  unfold ALLOWED_FIELD_NAMES in Hin. rewrite !elem_of_cons, elem_of_nil in Hin.
  destruct Hspecial as [-> | [-> | ->]];
    repeat (destruct Hin as [Hin|Hin]; [discriminate Hin|]); exact Hin.
Qed.

(** Binding an attribute the object has, by the kind of name. *)
Lemma assign_eq (name : string) (v : value) (m : message) :
  assign name v m =
    if bool_decide (name = "__class__") then (Raise TypeError, m)
    else if bool_decide (name = "__weakref__") then (Raise AttributeError, m)
    else if bool_decide (name = "__dict__") then
      match v with
      | VDict d => (Ok tt, d)
      | _ => (Raise TypeError, m)
      end
    else (Ok tt, if bool_decide (is_Some (m !! name)) then <[name := v]> m else m).
Proof.
  unfold assign, ebind, hasattr, setattr, ret.
  destruct (decide (name = "__class__")) as [-> | Hclass]; [reflexivity|].
  destruct (decide (name = "__weakref__")) as [-> | Hweak]; [reflexivity|].
  destruct (decide (name = "__dict__")) as [-> | Hdict]; [reflexivity|].
  rewrite (bool_decide_eq_false_2 (name ∈ special_attributes))
    by (rewrite special_attributes_elem; tauto).
  rewrite !(bool_decide_eq_false_2 (name = _)) by assumption.
  cbn [orb]. destruct (bool_decide (is_Some (m !! name))); reflexivity.
Qed.

Lemma assign_plain (name : string) (v : value) (m : message) :
  name ∉ special_attributes →
  assign name v m =
    (Ok tt, if bool_decide (is_Some (m !! name)) then <[name := v]> m else m).
Proof.
  intros Hplain. rewrite special_attributes_elem in Hplain. rewrite assign_eq.
  rewrite !(bool_decide_eq_false_2 (name = _)) by tauto. reflexivity.
Qed.

Lemma assign_twice (name : string) (v : value) (m : message) :
  assign name v (assign name v m).2 = assign name v m.
Proof.
  rewrite !assign_eq.
  destruct (bool_decide (name = "__class__")); [reflexivity|].
  destruct (bool_decide (name = "__weakref__")); [reflexivity|].
  destruct (bool_decide (name = "__dict__")); [destruct v; reflexivity|].
  cbn [snd]. destruct (decide (is_Some (m !! name))) as [Hexp|Hexp].
  - rewrite (bool_decide_eq_true_2 (is_Some (m !! name))) by exact Hexp.
    rewrite bool_decide_eq_true_2 by (rewrite lookup_insert_eq; eauto).
    rewrite insert_insert_eq. reflexivity.
  - rewrite !(bool_decide_eq_false_2 (is_Some (m !! name))) by exact Hexp.
    reflexivity.
Qed.

(** On two messages with the same fields, binding gives the same outcome
    and leaves messages with the same fields. *)
Lemma assign_dom (name : string) (v : value) (m m2 : message) :
  dom m2 = dom m →
  (assign name v m2).1 = (assign name v m).1 ∧
  dom (assign name v m2).2 = dom (assign name v m).2.
Proof.
  intros Hdom. rewrite !assign_eq.
  destruct (bool_decide (name = "__class__")); [auto|].
  destruct (bool_decide (name = "__weakref__")); [auto|].
  destruct (bool_decide (name = "__dict__")); [destruct v; auto|].
  cbn [fst snd]. split; [reflexivity|].
  assert (is_Some (m2 !! name) ↔ is_Some (m !! name)) as Hiff
    by (rewrite <- !elem_of_dom, Hdom; reflexivity).
  destruct (decide (is_Some (m !! name))) as [Hexp|Hexp].
  - rewrite !bool_decide_eq_true_2 by tauto.
    rewrite !dom_insert_L, Hdom. reflexivity.
  - rewrite !bool_decide_eq_false_2 by tauto. exact Hdom.
Qed.

(** The step written out as a function of the message. *)
Lemma mutate_body_eq (role : string) (d : value) (m : message) :
  mutate_body role d m =
    match py_getitem d "target" with
    | Raise e => (Raise e, m)
    | Ok target =>
      if py_eq_str target role then
        match py_getitem d "mutation_type" with
        | Raise e => (Raise e, m)
        | Ok kind =>
          match py_getitem d "fields" with
          | Raise e => (Raise e, m)
          | Ok fields =>
            if py_eq_str kind "remove_field" then
              match py_getitem fields "field_name" with
              | Raise e => (Raise e, m)
              | Ok (VStr name) => assign name VNone m
              | Ok _ => (Raise TypeError, m)
              end
            else if py_eq_str kind "modify_field" then
              match py_getitem fields "field_name" with
              | Raise e => (Raise e, m)
              | Ok field_name =>
                match py_getitem fields "new_value" with
                | Raise e => (Raise e, m)
                | Ok new_value =>
                  match field_name with
                  | VStr name => assign name new_value m
                  | _ => (Raise TypeError, m)
                  end
                end
              end
            else (Ok tt, m)
          end
        end
      else (Ok tt, m)
    end.
Proof.
  unfold mutate_body. rewrite ebind_lift.
  destruct (py_getitem d "target") as [target|e]; [|reflexivity].
  destruct (py_eq_str target role); [|reflexivity]. cbn [negb].
  rewrite ebind_lift.
  destruct (py_getitem d "mutation_type") as [kind|e]; [|reflexivity].
  rewrite ebind_lift.
  destruct (py_getitem d "fields") as [fields|e]; [|reflexivity].
  unfold ebind at 1.
  destruct (py_eq_str kind "remove_field").
  - rewrite ebind_lift.
    destruct (py_getitem fields "field_name") as [[| | |name| | |]|e]; try reflexivity.
    fold (assign name VNone).
    destruct (assign name VNone m) as [[[]|e] m'];
      unfold ret; destruct (py_eq_str kind "identity"); reflexivity.
  - destruct (py_eq_str kind "modify_field").
    + rewrite ebind_lift.
      destruct (py_getitem fields "field_name") as [field_name|e]; [|reflexivity].
      rewrite ebind_lift.
      destruct (py_getitem fields "new_value") as [new_value|e]; [|reflexivity].
      destruct field_name as [| | |name| | |]; try reflexivity.
      fold (assign name new_value).
      destruct (assign name new_value m) as [[[]|e] m'];
        unfold ret; destruct (py_eq_str kind "identity"); reflexivity.
    + unfold ret. destruct (py_eq_str kind "identity"); reflexivity.
Qed.

(** The step of a descriptor that passed the role filter, by kind, when the
    name is a field name. *)
Lemma mutate_body_remove_field (role : string) (d target fields : value)
    (name : string) (m : message) :
  name ∉ special_attributes →
  py_getitem d "target" = Ok target →
  py_eq_str target role = true →
  py_getitem d "mutation_type" = Ok (VStr "remove_field") →
  py_getitem d "fields" = Ok fields →
  py_getitem fields "field_name" = Ok (VStr name) →
  mutate_body role d m =
    (Ok tt, if bool_decide (is_Some (m !! name)) then <[name := VNone]> m else m).
Proof.
  intros Hplain Ht Hrole Hk Hf Hn. rewrite mutate_body_eq, Ht, Hrole, Hk, Hf.
  cbn [py_eq_str]. rewrite bool_decide_eq_true_2 by reflexivity.
  rewrite Hn. apply assign_plain, Hplain.
Qed.

Lemma mutate_body_modify_field (role : string) (d target fields new_value : value)
    (name : string) (m : message) :
  name ∉ special_attributes →
  py_getitem d "target" = Ok target →
  py_eq_str target role = true →
  py_getitem d "mutation_type" = Ok (VStr "modify_field") →
  py_getitem d "fields" = Ok fields →
  py_getitem fields "field_name" = Ok (VStr name) →
  py_getitem fields "new_value" = Ok new_value →
  mutate_body role d m =
    (Ok tt, if bool_decide (is_Some (m !! name)) then <[name := new_value]> m else m).
Proof.
  intros Hplain Ht Hrole Hk Hf Hn Hv. rewrite mutate_body_eq, Ht, Hrole, Hk, Hf.
  cbn [py_eq_str]. rewrite bool_decide_eq_false_2 by discriminate.
  rewrite bool_decide_eq_true_2 by reflexivity.
  rewrite Hn, Hv. apply assign_plain, Hplain.
Qed.

(** Whatever the descriptor, its step either leaves the message alone (and
    its outcome does not depend on the message), or binds the attribute it
    names if the object has it. *)
Lemma mutate_body_shape (role : string) (d : value) :
  (∃ r, ∀ m, mutate_body role d m = (r, m)) ∨
  (∃ name v, names_field d name ∧ ∀ m : message, mutate_body role d m = assign name v m).
Proof.
  pose proof (mutate_body_eq role d) as E.
  destruct (py_getitem d "target") as [target|e]; [|left; eauto].
  destruct (py_eq_str target role); [|left; eauto].
  destruct (py_getitem d "mutation_type") as [kind|e] eqn:Hk; [|left; eauto].
  destruct (py_getitem d "fields") as [fields|e] eqn:Hf; [|left; eauto].
  destruct (py_eq_str kind "remove_field") eqn:Hrem.
  - apply py_eq_str_true in Hrem as ->.
    destruct (py_getitem fields "field_name") as [[| | |name| | |]|e] eqn:Hn;
      try (left; eauto; fail).
    right. exists name, VNone. split; [|exact E].
    exists (VStr "remove_field"), fields. auto.
  - destruct (py_eq_str kind "modify_field") eqn:Hmod; [|left; eauto].
    apply py_eq_str_true in Hmod as ->.
    destruct (py_getitem fields "field_name") as [field_name|e] eqn:Hn; [|left; eauto].
    destruct (py_getitem fields "new_value") as [new_value|e]; [|left; eauto].
    destruct field_name as [| | |name| | |]; try (left; eauto; fail).
    right. exists name, new_value. split; [|exact E].
    exists (VStr "modify_field"), fields. auto.
Qed.

Lemma mutate_body_twice (role : string) (d : value) (m : message) :
  mutate_body role d (mutate_body role d m).2 = mutate_body role d m.
Proof.
  destruct (mutate_body_shape role d) as [[r Hr]|(name & v & _ & Hset)].
  - rewrite !Hr. reflexivity.
  - rewrite !Hset. apply assign_twice.
Qed.

(** ** The engine's claims *)

(** C1.  A [modify_field] descriptor addressed to the role being mutated
    whose [fields["field_name"]] is one of the allowed field names succeeds;
    if the message exposes that field, the field then holds
    [fields["new_value"]], the very value of the descriptor; if the message
    does not expose it, the message is unchanged.  Holds for
    [mutate_client_hello] with target ["client"] and for
    [mutate_server_hello] with target ["server"]. *)
Theorem modify_field_sets_new_value :
  ∀ (d fields new_value : value) (name : string) (m : message),
    name ∈ ALLOWED_FIELD_NAMES →
    py_getitem d "mutation_type" = Ok (VStr "modify_field") →
    py_getitem d "fields" = Ok fields →
    py_getitem fields "field_name" = Ok (VStr name) →
    py_getitem fields "new_value" = Ok new_value →
    (py_getitem d "target" = Ok (VStr "client") →
     ∃ m', mutate_client_hello {| mutation_params := [d] |} m = (Ok tt, m') ∧
           (exposes m name → m' !! name = Some new_value) ∧
           (¬ exposes m name → m' = m)) ∧
    (py_getitem d "target" = Ok (VStr "server") →
     ∃ m', mutate_server_hello {| mutation_params := [d] |} m = (Ok tt, m') ∧
           (exposes m name → m' !! name = Some new_value) ∧
           (¬ exposes m name → m' = m)).
Proof.
  intros d fields new_value name m Hname Hk Hf Hn Hv.
  apply allowed_not_special in Hname.
  assert (∀ role, py_getitem d "target" = Ok (VStr role) →
          ∃ m', for_each_e (mutate_body role) [d] m = (Ok tt, m') ∧
                (exposes m name → m' !! name = Some new_value) ∧
                (¬ exposes m name → m' = m)) as Hrole.
  { intros role Ht. rewrite for_each_e_singleton.
    rewrite (mutate_body_modify_field role d (VStr role) fields new_value name m)
      by (try assumption; apply py_eq_str_true; reflexivity).
    eexists; split; [reflexivity|]. unfold exposes.
    case_bool_decide as Hexp; split; intros H; try contradiction; try reflexivity.
    apply lookup_insert_eq. }
  split; intros Ht; [rewrite mutate_client_hello_body | rewrite mutate_server_hello_body];
    apply Hrole, Ht.
Qed.

(** C2.  A [remove_field] descriptor addressed to the role being mutated
    whose [fields["field_name"]] is one of the allowed field names succeeds;
    if the message exposes that field, the field then reads [None] and every
    other field reads as before; if the message does not expose it, nothing
    happens and nothing is raised. *)
Theorem remove_field_clears_field :
  ∀ (d fields : value) (name : string) (m : message),
    name ∈ ALLOWED_FIELD_NAMES →
    py_getitem d "mutation_type" = Ok (VStr "remove_field") →
    py_getitem d "fields" = Ok fields →
    py_getitem fields "field_name" = Ok (VStr name) →
    (py_getitem d "target" = Ok (VStr "client") →
     ∃ m', mutate_client_hello {| mutation_params := [d] |} m = (Ok tt, m') ∧
           (exposes m name → m' !! name = Some VNone ∧ others_unchanged name m m') ∧
           (¬ exposes m name → m' = m)) ∧
    (py_getitem d "target" = Ok (VStr "server") →
     ∃ m', mutate_server_hello {| mutation_params := [d] |} m = (Ok tt, m') ∧
           (exposes m name → m' !! name = Some VNone ∧ others_unchanged name m m') ∧
           (¬ exposes m name → m' = m)).
Proof.
  intros d fields name m Hname Hk Hf Hn.
  apply allowed_not_special in Hname.
  assert (∀ role, py_getitem d "target" = Ok (VStr role) →
          ∃ m', for_each_e (mutate_body role) [d] m = (Ok tt, m') ∧
                (exposes m name → m' !! name = Some VNone ∧ others_unchanged name m m') ∧
                (¬ exposes m name → m' = m)) as Hrole.
  { intros role Ht. rewrite for_each_e_singleton.
    rewrite (mutate_body_remove_field role d (VStr role) fields name m)
      by (try assumption; apply py_eq_str_true; reflexivity).
    eexists; split; [reflexivity|]. unfold exposes.
    case_bool_decide as Hexp; split; intros H; try contradiction; try reflexivity.
    split; [apply lookup_insert_eq|].
    intros other Hother. apply lookup_insert_ne. congruence. }
  split; intros Ht; [rewrite mutate_client_hello_body | rewrite mutate_server_hello_body];
    apply Hrole, Ht.
Qed.

(** C3.  A descriptor whose target is not the role being mutated changes
    nothing: alone it leaves the message as it is, and it can be dropped from
    any descriptor list without changing what the call does.  Only its
    ["target"] is read: the rest of the descriptor may be anything. *)
Theorem other_role_descriptor_is_skipped :
  ∀ (d target : value) (pre post : list value) (m : message),
    py_getitem d "target" = Ok target →
    (target ≠ VStr "client" →
     mutate_client_hello {| mutation_params := [d] |} m = (Ok tt, m) ∧
     mutate_client_hello {| mutation_params := pre ++ d :: post |} m =
       mutate_client_hello {| mutation_params := pre ++ post |} m) ∧
    (target ≠ VStr "server" →
     mutate_server_hello {| mutation_params := [d] |} m = (Ok tt, m) ∧
     mutate_server_hello {| mutation_params := pre ++ d :: post |} m =
       mutate_server_hello {| mutation_params := pre ++ post |} m).
Proof.
  intros d target pre post m Ht.
  assert (∀ role, target ≠ VStr role →
          for_each_e (mutate_body role) [d] m = (Ok tt, m) ∧
          for_each_e (mutate_body role) (pre ++ d :: post) m =
            for_each_e (mutate_body role) (pre ++ post) m) as Hrole.
  { intros role Hne.
    assert (∀ m0, mutate_body role d m0 = (Ok tt, m0)) as Hskip
      by (intros m0; apply (mutate_body_other_role role d target m0 Ht),
            py_eq_str_false, Hne).
    split; [rewrite for_each_e_singleton; apply Hskip|].
    apply for_each_e_skip, Hskip. }
  split; intros Hne; rewrite ?mutate_client_hello_body, ?mutate_server_hello_body;
    apply Hrole, Hne.
Qed.

(** C7.  A descriptor carrying its three keys whose kind is neither
    ["remove_field"] nor ["modify_field"] (so ["identity"],
    ["send_additional_packet"], or a kind the engine does not know) raises
    nothing and leaves the message unchanged, in either call; it can be
    dropped from any descriptor list. *)
Theorem other_kinds_are_ignored :
  ∀ (d target kind fields : value) (pre post : list value) (m : message),
    py_getitem d "target" = Ok target →
    py_getitem d "mutation_type" = Ok kind →
    py_getitem d "fields" = Ok fields →
    kind ≠ VStr "remove_field" →
    kind ≠ VStr "modify_field" →
    mutate_client_hello {| mutation_params := [d] |} m = (Ok tt, m) ∧
    mutate_server_hello {| mutation_params := [d] |} m = (Ok tt, m) ∧
    mutate_client_hello {| mutation_params := pre ++ d :: post |} m =
      mutate_client_hello {| mutation_params := pre ++ post |} m ∧
    mutate_server_hello {| mutation_params := pre ++ d :: post |} m =
      mutate_server_hello {| mutation_params := pre ++ post |} m.
Proof.
  intros d target kind fields pre post m Ht Hk Hf Hrem Hmod.
  assert (∀ role m0, mutate_body role d m0 = (Ok tt, m0)) as Hskip
    by (intros role m0;
        apply (mutate_body_other_kind role d target kind fields m0 Ht Hk Hf);
        apply py_eq_str_false; assumption).
  rewrite !mutate_client_hello_body, !mutate_server_hello_body. cbn [mutation_params].
  rewrite !for_each_e_singleton.
  repeat split; try apply Hskip; apply for_each_e_skip, Hskip.
Qed.

(** C9.  Applying one descriptor a second time, to the message the first
    application left, gives the first application's result again.  It holds
    for every descriptor, so for every [remove_field] and [modify_field]
    descriptor, and in both calls. *)
Theorem single_descriptor_idempotent :
  ∀ (d : value) (m : message),
    mutate_client_hello {| mutation_params := [d] |}
        (mutate_client_hello {| mutation_params := [d] |} m).2 =
      mutate_client_hello {| mutation_params := [d] |} m ∧
    mutate_server_hello {| mutation_params := [d] |}
        (mutate_server_hello {| mutation_params := [d] |} m).2 =
      mutate_server_hello {| mutation_params := [d] |} m.
Proof.
  intros d m. rewrite !mutate_client_hello_body, !mutate_server_hello_body.
  cbn [mutation_params]. rewrite !for_each_e_singleton.
  split; apply mutate_body_twice.
Qed.

(** ** The engine's claims on the sample messages *)

Lemma allowed_field_name_decided (name : string) :
  bool_decide (name ∈ ALLOWED_FIELD_NAMES) = true → name ∈ ALLOWED_FIELD_NAMES.
Proof. apply bool_decide_eq_true_1. Qed.

Lemma modify_field_sets_new_value_witness :
  (∃ m', mutate_client_hello {| mutation_params := [modify_cipher_suites] |}
           sample_client_hello = (Ok tt, m') ∧
         m' !! "cipher_suites" = Some (VList [VInt 4866])) ∧
  (∃ m', mutate_server_hello {| mutation_params := [modify_random] |}
           sample_server_hello = (Ok tt, m') ∧
         m' !! "random" = Some (VStr "deadbeef")).
Proof.
  split.
  - destruct (modify_field_sets_new_value modify_cipher_suites _ (VList [VInt 4866])
                "cipher_suites" sample_client_hello
                (allowed_field_name_decided "cipher_suites" eq_refl)
                eq_refl eq_refl eq_refl eq_refl)
      as [Hclient _].
    destruct (Hclient eq_refl) as (m' & Hrun & Hset & _).
    exists m'. split; [exact Hrun|]. apply Hset. vm_compute. eauto.
  - destruct (modify_field_sets_new_value modify_random _ (VStr "deadbeef")
                "random" sample_server_hello
                (allowed_field_name_decided "random" eq_refl)
                eq_refl eq_refl eq_refl eq_refl)
      as [_ Hserver].
    destruct (Hserver eq_refl) as (m' & Hrun & Hset & _).
    exists m'. split; [exact Hrun|]. apply Hset. vm_compute. eauto.
Defined.

Lemma remove_field_clears_field_witness :
  (∃ m', mutate_client_hello {| mutation_params := [remove_alpn] |}
           sample_client_hello = (Ok tt, m') ∧
         m' !! "alpn_protocols" = Some VNone ∧
         others_unchanged "alpn_protocols" sample_client_hello m') ∧
  mutate_server_hello {| mutation_params := [remove_server_name] |}
    sample_server_hello = (Ok tt, sample_server_hello).
Proof.
  split.
  - destruct (remove_field_clears_field remove_alpn _ "alpn_protocols"
                sample_client_hello
                (allowed_field_name_decided "alpn_protocols" eq_refl)
                eq_refl eq_refl eq_refl) as [Hclient _].
    destruct (Hclient eq_refl) as (m' & Hrun & Hset & _).
    exists m'. split; [exact Hrun|]. apply Hset. vm_compute. eauto.
  - destruct (remove_field_clears_field remove_server_name _ "server_name"
                sample_server_hello
                (allowed_field_name_decided "server_name" eq_refl)
                eq_refl eq_refl eq_refl) as [_ Hserver].
    destruct (Hserver eq_refl) as (m' & Hrun & _ & Hskip).
    rewrite Hrun, Hskip; [reflexivity|].
    vm_compute. intros [v Hv]. discriminate Hv.
Defined.

Lemma other_role_descriptor_is_skipped_witness :
  (mutate_client_hello {| mutation_params := [modify_random] |} sample_client_hello
     = (Ok tt, sample_client_hello) ∧
   mutate_client_hello {| mutation_params := [remove_alpn] ++ modify_random :: [] |}
       sample_client_hello =
     mutate_client_hello {| mutation_params := [remove_alpn] ++ [] |}
       sample_client_hello) ∧
  (mutate_server_hello {| mutation_params := [remove_alpn] |} sample_server_hello
     = (Ok tt, sample_server_hello) ∧
   mutate_server_hello {| mutation_params := [] ++ remove_alpn :: [modify_random] |}
       sample_server_hello =
     mutate_server_hello {| mutation_params := [] ++ [modify_random] |}
       sample_server_hello).
Proof.
  split.
  - apply (other_role_descriptor_is_skipped modify_random (VStr "server")
             [remove_alpn] [] sample_client_hello eq_refl).
    discriminate.
  - apply (other_role_descriptor_is_skipped remove_alpn (VStr "client")
             [] [modify_random] sample_server_hello eq_refl).
    discriminate.
Defined.

Lemma other_kinds_are_ignored_witness :
  mutate_client_hello {| mutation_params := [identity_client] |} sample_client_hello
    = (Ok tt, sample_client_hello) ∧
  mutate_server_hello {| mutation_params := [send_packet_server] |} sample_server_hello
    = (Ok tt, sample_server_hello).
Proof.
  split.
  - apply (other_kinds_are_ignored identity_client (VStr "client") (VStr "identity")
             (VDict ∅) [] [] sample_client_hello eq_refl eq_refl eq_refl);
      discriminate.
  - apply (other_kinds_are_ignored send_packet_server (VStr "server")
             (VStr "send_additional_packet") _ [] [] sample_server_hello
             eq_refl eq_refl eq_refl);
      discriminate.
Defined.

(** ** The validator against the specification's rules *)

Lemma bind_Ok_inv {A B : Type} (r : result A) (k : A → result B) (b : B) :
  bind r k = Ok b → ∃ a, r = Ok a ∧ k a = Ok b.
Proof. destruct r as [a|e]; cbn; [eauto | discriminate]. Qed.

Lemma py_in_list_member (v : value) (names : list string) :
  py_in_list v names = Spec.member v names.
Proof.
  unfold py_in_list, Spec.member. induction names as [|n names IH].
  - destruct v; reflexivity.
  - cbn [existsb]. rewrite IH. destruct v as [| | |s| | |]; try reflexivity.
    cbn [py_eq_str].
    destruct (decide (s = n)) as [->|Hne].
    + rewrite bool_decide_eq_true_2 by reflexivity. cbn.
      symmetry. apply bool_decide_eq_true_2. left.
    + rewrite (bool_decide_eq_false_2 (s = n)) by assumption. cbn.
      apply bool_decide_ext. rewrite elem_of_cons. tauto.
Qed.

Lemma py_in_list_true (v : value) (names : list string) :
  py_in_list v names = true → ∃ s, v = VStr s ∧ s ∈ names.
Proof.
  rewrite py_in_list_member. destruct v; cbn; try discriminate.
  intros H. apply bool_decide_eq_true in H. eauto.
Qed.

(** The table of the code and the table of the specification agree. *)
Lemma MUTATIONS_FORMAT_lookup (s : string) :
  MUTATIONS_FORMAT !! s =
    if bool_decide (s ∈ Spec.MutationKind) then Some (Spec.required s) else None.
Proof.
  destruct (decide (s = "identity")) as [->|H1]; [reflexivity|].
  destruct (decide (s = "remove_field")) as [->|H2]; [reflexivity|].
  destruct (decide (s = "modify_field")) as [->|H3]; [reflexivity|].
  destruct (decide (s = "send_additional_packet")) as [->|H4]; [reflexivity|].
  rewrite bool_decide_eq_false_2.
  - unfold MUTATIONS_FORMAT.
    rewrite !lookup_insert_ne by congruence. apply lookup_singleton_ne. congruence.
  - unfold Spec.MutationKind. rewrite !elem_of_cons, elem_of_nil. tauto.
Qed.

Lemma vocabulary_agrees :
  ALLOWED_FIELD_NAMES = Spec.FieldName ∧ ALLOWED_PACKET_TYPES = Spec.PacketType.
Proof. split; reflexivity. Qed.

Section ValidatorProperties.

Variable json_loads : string → decode_error + value.
Variable format : value → string.

(** One turn of the loop over the required parameters, on a fields object:
    the presence check, then the enum check. *)
Lemma check_required_field_spec (e : Spec.entry) (p : string) :
  check_required_field format (Spec.e_mutation e) (VDict (Spec.e_fields e)) p =
    match Spec.first_violation e [Spec.Presence p; Spec.EnumMembership p] with
    | Some c => Raise (InvalidMutationSpec format c)
    | None => Ok tt
    end.
Proof.
  unfold check_required_field. cbn [py_contains bind Spec.first_violation Spec.violation py_getitem].
  destruct (Spec.e_fields e !! p) as [x|] eqn:Hp.
  - rewrite bool_decide_eq_true_2 by eauto. cbn [negb].
    change Spec.FieldName with ALLOWED_FIELD_NAMES.
    change Spec.PacketType with ALLOWED_PACKET_TYPES.
    rewrite <- !py_in_list_member.
    destruct (bool_decide (p = "field_name")); cbn [bind andb].
    + destruct (py_in_list x ALLOWED_FIELD_NAMES); cbn [negb bind]; [|reflexivity].
      destruct (bool_decide (p = "packet_type")); cbn [bind andb]; [|reflexivity].
      destruct (py_in_list x ALLOWED_PACKET_TYPES); reflexivity.
    + destruct (bool_decide (p = "packet_type")); cbn [bind andb]; [|reflexivity].
      destruct (py_in_list x ALLOWED_PACKET_TYPES); reflexivity.
  - rewrite bool_decide_eq_false_2 by (intros [? ?]; discriminate). reflexivity.
Qed.

Lemma for_each_required_spec (e : Spec.entry) (req : list string) :
  for_each (check_required_field format (Spec.e_mutation e) (VDict (Spec.e_fields e))) req =
    match Spec.first_violation e
            (flat_map (fun p => [Spec.Presence p; Spec.EnumMembership p]) req) with
    | Some c => Raise (InvalidMutationSpec format c)
    | None => Ok tt
    end.
Proof.
  induction req as [|p req IH]; [reflexivity|].
  cbn [for_each flat_map app]. rewrite check_required_field_spec.
  cbn [Spec.first_violation].
  destruct (Spec.violation e (Spec.Presence p)); [reflexivity|].
  destruct (Spec.violation e (Spec.EnumMembership p)); [reflexivity|].
  cbn [bind]. apply IH.
Qed.

(** The loop body on an entry of the wire format: the first violation in the
    specification's order is the exception raised; without one the
    descriptor is built. *)
Lemma parse_entry_spec (v : value) (e : Spec.entry) :
  entry_of v = Some e →
  parse_entry format v =
    match Spec.first_violation e (Spec.checks_of e) with
    | Some c => Raise (InvalidMutationSpec format c)
    | None => Ok (Spec.descriptor_of e)
    end.
Proof.
  destruct v as [| | | | | |ed]; try discriminate. unfold entry_of, parse_entry.
  cbn [py_get bind].
  destruct (hashable (default VNone (ed !! "mutation"))) eqn:Hhash; [|discriminate].
  destruct (default (VDict ∅) (ed !! "fields")) as [| | | | | |fields]; try discriminate.
  intros [= <-]. unfold Spec.checks_of.
  cbn [Spec.e_mutation Spec.e_target Spec.e_fields Spec.first_violation Spec.violation].
  destruct (default VNone (ed !! "mutation")) as [| | |s| | |];
    try discriminate; try reflexivity.
  cbn [py_in_keys bind Spec.member py_dict_getitem].
  rewrite MUTATIONS_FORMAT_lookup.
  destruct (bool_decide (s ∈ Spec.MutationKind)).
  - rewrite bool_decide_eq_true_2 by eauto. cbn [negb].
    rewrite py_in_list_member. change ["client"; "server"] with Spec.Target.
    destruct (Spec.member (default VNone (ed !! "target")) Spec.Target); [|reflexivity].
    cbn [negb bind].
    rewrite (for_each_required_spec
               (Spec.Entry (VStr s) (default VNone (ed !! "target")) fields)).
    destruct (Spec.first_violation _ _); reflexivity.
  - rewrite bool_decide_eq_false_2 by (intros [? ?]; discriminate). reflexivity.
Qed.

(** The whole loop, on entries of the wire format. *)
Lemma parse_loop_spec (entries : list value) (es : list Spec.entry) (acc : list value) :
  mapM entry_of entries = Some es →
  parse_loop format entries acc =
    match Spec.parse es with
    | inl c => Raise (InvalidMutationSpec format c)
    | inr ds => Ok (acc ++ ds)%list
    end.
Proof.
  rewrite mapM_Some. intros Hes. revert acc.
  induction Hes as [|v e entries es Hv _ IH]; intros acc.
  - cbn. rewrite app_nil_r. reflexivity.
  - cbn [parse_loop Spec.parse]. rewrite (parse_entry_spec v e Hv).
    destruct (Spec.first_violation e (Spec.checks_of e)); [reflexivity|].
    cbn [bind]. rewrite IH.
    destruct (Spec.parse es) as [c|ds]; [reflexivity|].
    rewrite <- app_assoc. reflexivity.
Qed.

Lemma parse_mutation_params_spec (param_str : string) (entries : list value)
    (es : list Spec.entry) :
  json_loads param_str = inr (VList entries) →
  mapM entry_of entries = Some es →
  parse_mutation_params json_loads format param_str = as_result format (Spec.parse es).
Proof.
  intros Hloads Hes. unfold parse_mutation_params. rewrite Hloads.
  cbn [py_iter bind]. rewrite (parse_loop_spec entries es [] Hes).
  destruct (Spec.parse es); reflexivity.
Qed.

End ValidatorProperties.

Lemma sample_runs :
  parse_mutation_params sample_loads sample_format scenario_text
    = Ok [remove_alpn; modify_random] ∧
  parse_mutation_params sample_loads sample_format several_errors_text
    = Raise (ValueError "Invalid mutation type: bogus") ∧
  parse_mutation_params sample_loads sample_format bad_field_name_text
    = Raise (ValueError "Invalid field name: not_a_real_field") ∧
  parse_mutation_params sample_loads sample_format truncated_text
    = Raise (JSONDecodeError (DecodeError "Expecting value" truncated_text 0)).
Proof. repeat split; vm_compute; reflexivity. Qed.

Section ValidatorLoop.

Variable json_loads : string → decode_error + value.
Variable format : value → string.

(** The loop only ever appends, one descriptor per entry. *)
Lemma parse_loop_length (entries acc out : list value) :
  parse_loop format entries acc = Ok out →
  length out = length acc + length entries.
Proof.
  revert acc. induction entries as [|v entries IH]; intros acc; cbn [parse_loop].
  - intros [= <-]. cbn. lia.
  - intros H. apply bind_Ok_inv in H as (d & _ & H). apply IH in H.
    rewrite H, length_app. cbn. lia.
Qed.

(** A list is returned only when every entry passed. *)
Lemma parse_loop_Forall (P : value → Prop) (entries acc out : list value) :
  (∀ v d, parse_entry format v = Ok d → P d) →
  Forall P acc →
  parse_loop format entries acc = Ok out →
  Forall P out.
Proof.
  intros HP. revert acc. induction entries as [|v entries IH]; intros acc Hacc;
    cbn [parse_loop].
  - intros [= <-]. exact Hacc.
  - intros H. apply bind_Ok_inv in H as (d & Hd & H).
    apply (IH (acc ++ [d])%list); [|exact H].
    apply Forall_app. split; [exact Hacc|]. constructor; [|constructor].
    exact (HP v d Hd).
Qed.

Lemma parse_loop_entry_Ok (entries acc out : list value) (i : nat) (v : value) :
  parse_loop format entries acc = Ok out →
  entries !! i = Some v →
  ∃ d, parse_entry format v = Ok d.
Proof.
  revert acc i. induction entries as [|w entries IH]; intros acc i; cbn [parse_loop].
  - intros _ Hi. rewrite lookup_nil in Hi. discriminate.
  - intros H Hi. apply bind_Ok_inv in H as (d & Hd & H).
    destruct i as [|i]; cbn in Hi.
    + injection Hi as <-. eauto.
    + exact (IH _ i H Hi).
Qed.

Lemma parse_mutation_params_Ok_inv (param_str : string) (out : list value) :
  parse_mutation_params json_loads format param_str = Ok out →
  ∃ items, parse_loop format items [] = Ok out.
Proof.
  unfold parse_mutation_params. destruct (json_loads param_str) as [e|v]; [discriminate|].
  intros H. apply bind_Ok_inv in H as (items & _ & H). eauto.
Qed.

End ValidatorLoop.

Lemma valid_no_violation (e : Spec.entry) :
  Spec.valid e = true → Spec.first_violation e (Spec.checks_of e) = None.
Proof.
  unfold Spec.valid. generalize (Spec.checks_of e) as cs.
  induction cs as [|c cs IH]; [reflexivity|]. cbn [forallb Spec.first_violation].
  intros H. apply andb_prop in H as [Hc Hcs].
  apply bool_decide_eq_true in Hc. rewrite Hc. exact (IH Hcs).
Qed.

Lemma spec_parse_valid (es : list Spec.entry) :
  Forall (fun e => Spec.valid e = true) es →
  Spec.parse es = inr (Spec.descriptor_of <$> es).
Proof.
  induction 1 as [|e es He _ IH]; [reflexivity|].
  cbn [Spec.parse]. rewrite (valid_no_violation e He), IH. reflexivity.
Qed.

(** Every violation is reported as a [ValueError]. *)
Lemma InvalidMutationSpec_is_ValueError (format : value → string) (c : Spec.cause) :
  ∃ msg, InvalidMutationSpec format c = ValueError msg.
Proof. destruct c; cbn; eauto. Qed.

(** ** The validator's claims *)

(** C4.  When the text decodes to an array of wire-format entries that are
    all valid, [parse_mutation_params] returns a list as long as the array,
    and the descriptor at each position is the one of the entry at that
    position: its mutation kind, its target and its whole fields object,
    extra keys included. *)
Theorem valid_text_parses_in_order :
  ∀ (json_loads : string → decode_error + value) (format : value → string)
    (param_str : string) (entries : list value) (es : list Spec.entry),
    json_loads param_str = inr (VList entries) →
    mapM entry_of entries = Some es →
    Forall (fun e => Spec.valid e = true) es →
    ∃ mutation_list,
      parse_mutation_params json_loads format param_str = Ok mutation_list ∧
      length mutation_list = length entries ∧
      ∀ (i : nat) (v : value),
        entries !! i = Some v →
        ∃ e, entry_of v = Some e ∧ mutation_list !! i = Some (Spec.descriptor_of e).
Proof.
  intros json_loads format param_str entries es Hloads Hes Hvalid.
  exists (Spec.descriptor_of <$> es).
  rewrite (parse_mutation_params_spec json_loads format param_str entries es Hloads Hes).
  rewrite (spec_parse_valid es Hvalid). cbn [as_result].
  apply mapM_Some in Hes.
  split; [reflexivity|]. split.
  - rewrite length_fmap. symmetry. exact (Forall2_length _ _ _ Hes).
  - intros i v Hi.
    destruct (Forall2_lookup_l _ _ _ i v Hes Hi) as (e & He & Hv).
    exists e. split; [exact Hv|]. rewrite list_lookup_fmap, He. reflexivity.
Qed.

(** C5.  On an array of wire-format entries [parse_mutation_params] does
    what the ordered, fail-fast validation of the specification does: the
    entries are taken in order; within an entry the kind is checked first,
    then the target, then each required parameter in declared order, presence
    before enum membership; the first failing check raises its error and
    nothing after it is consulted; a list is returned only when no check
    failed, and then it has one descriptor per entry. *)
Theorem validation_is_ordered_and_fails_fast :
  ∀ (json_loads : string → decode_error + value) (format : value → string)
    (param_str : string) (entries : list value) (es : list Spec.entry),
    json_loads param_str = inr (VList entries) →
    mapM entry_of entries = Some es →
    parse_mutation_params json_loads format param_str = as_result format (Spec.parse es) ∧
    (∀ mutation_list,
        parse_mutation_params json_loads format param_str = Ok mutation_list →
        length mutation_list = length entries ∧
        Forall (fun e => Spec.first_violation e (Spec.checks_of e) = None) es).
Proof.
  intros json_loads format param_str entries es Hloads Hes.
  pose proof (parse_mutation_params_spec json_loads format param_str entries es
                Hloads Hes) as Hspec.
  split; [exact Hspec|]. intros out Hout. split.
  - unfold parse_mutation_params in Hout. rewrite Hloads in Hout. cbn [py_iter bind] in Hout.
    apply parse_loop_length in Hout. exact Hout.
  - rewrite Hspec in Hout. clear Hspec Hes Hloads. revert out Hout.
    induction es as [|e es IH]; intros out; [constructor|]. cbn [Spec.parse].
    destruct (Spec.first_violation e (Spec.checks_of e)) eqn:He; [discriminate|].
    destruct (Spec.parse es) as [c|ds]; [discriminate|]. intros _.
    constructor; [exact He|]. exact (IH ds eq_refl).
Qed.

Lemma first_violation_elem (e : Spec.entry) (cs : list Spec.check) (c : Spec.check)
    (x : Spec.cause) :
  c ∈ cs → Spec.violation e c = Some x → ∃ y, Spec.first_violation e cs = Some y.
Proof.
  intros Hc Hx. induction cs as [|c' cs IH]; [inversion Hc|].
  cbn [Spec.first_violation]. destruct (Spec.violation e c') as [y|] eqn:Hc'; [eauto|].
  apply elem_of_cons in Hc as [->|Hc]; [congruence|]. exact (IH Hc).
Qed.

Lemma spec_parse_fails (es : list Spec.entry) (i : nat) (e : Spec.entry) (x : Spec.cause) :
  es !! i = Some e →
  Spec.first_violation e (Spec.checks_of e) = Some x →
  ∃ c, Spec.parse es = inl c.
Proof.
  revert i. induction es as [|e' es IH]; intros i Hi Hx.
  - rewrite lookup_nil in Hi. discriminate.
  - cbn [Spec.parse].
    destruct (Spec.first_violation e' (Spec.checks_of e')) as [y|] eqn:He'; [eauto|].
    destruct i as [|i]; cbn in Hi; [congruence|].
    destruct (IH i Hi Hx) as [c ->]. eauto.
Qed.

(** An entry whose kind requires the parameter [p] and whose value for [p]
    is outside the parameter's vocabulary has a violation. *)
Lemma required_bad_enum_violates (e : Spec.entry) (kind p : string) (req : list string)
    (x : value) :
  Spec.e_mutation e = VStr kind →
  MUTATIONS_FORMAT !! kind = Some req →
  p ∈ req →
  Spec.e_fields e !! p = Some x →
  (p = "field_name" ∧ py_in_list x ALLOWED_FIELD_NAMES = false) ∨
  (p = "packet_type" ∧ py_in_list x ALLOWED_PACKET_TYPES = false) →
  ∃ c, Spec.first_violation e (Spec.checks_of e) = Some c.
Proof.
  intros Hkind Hreq Hp Hx Hbad.
  rewrite MUTATIONS_FORMAT_lookup in Hreq.
  destruct (bool_decide (kind ∈ Spec.MutationKind)); [|discriminate].
  injection Hreq as <-.
  assert (∃ c, Spec.violation e (Spec.EnumMembership p) = Some c) as [c Hc].
  { cbn [Spec.violation]. rewrite Hx.
    change Spec.FieldName with ALLOWED_FIELD_NAMES.
    change Spec.PacketType with ALLOWED_PACKET_TYPES.
    rewrite <- !py_in_list_member.
    destruct Hbad as [[-> ->]|[-> ->]].
    - rewrite bool_decide_eq_true_2 by reflexivity. cbn. eauto.
    - rewrite (bool_decide_eq_false_2 ("packet_type" = "field_name")) by discriminate.
      rewrite bool_decide_eq_true_2 by reflexivity. cbn. eauto. }
  apply (first_violation_elem e _ (Spec.EnumMembership p) c); [|exact Hc].
  unfold Spec.checks_of. rewrite Hkind. do 2 (apply elem_of_cons; right).
  apply list_elem_of_In, in_flat_map. exists p.
  split; [apply list_elem_of_In, Hp|]. right. left. reflexivity.
Qed.

Lemma parse_loop_app (format : value → string) (l1 l2 acc : list value) :
  parse_loop format (l1 ++ l2) acc =
    match parse_loop format l1 acc with
    | Ok acc' => parse_loop format l2 acc'
    | Raise e => Raise e
    end.
Proof.
  revert acc. induction l1 as [|v l1 IH]; intros acc; [reflexivity|].
  rewrite <- app_comm_cons. cbn [parse_loop].
  destruct (parse_entry format v) as [d|e]; [apply IH | reflexivity].
Qed.

Lemma first_violation_ext (e1 e2 : Spec.entry) (cs : list Spec.check) :
  (∀ c, c ∈ cs → Spec.violation e1 c = Spec.violation e2 c) →
  Spec.first_violation e1 cs = Spec.first_violation e2 cs.
Proof.
  induction cs as [|c cs IH]; intros Hcs; [reflexivity|]. cbn [Spec.first_violation].
  rewrite <- (Hcs c) by left.
  destruct (Spec.violation e1 c); [reflexivity|].
  apply IH. intros c' Hc'. apply Hcs. right. exact Hc'.
Qed.

(** Entries that agree on what is read have the same first violation. *)
Lemma agree_first_violation (e1 e2 : Spec.entry) :
  agree_on_required e1 e2 →
  Spec.first_violation e1 (Spec.checks_of e1) =
    Spec.first_violation e2 (Spec.checks_of e2).
Proof.
  intros (Hm & Ht & Hreq).
  assert (Spec.checks_of e2 = Spec.checks_of e1) as -> by (unfold Spec.checks_of; rewrite Hm; reflexivity).
  apply first_violation_ext. intros c Hc. unfold Spec.checks_of in Hc.
  apply elem_of_cons in Hc as [-> | Hc]; [cbn; rewrite Hm; reflexivity|].
  apply elem_of_cons in Hc as [-> | Hc]; [cbn; rewrite Ht; reflexivity|].
  apply list_elem_of_In, in_flat_map in Hc as (p & Hp & Hc).
  apply list_elem_of_In in Hp.
  destruct (Spec.e_mutation e1) as [| | |kind| | |] eqn:Hkind;
    try (inversion Hp; fail).
  assert (Spec.e_fields e1 !! p = Spec.e_fields e2 !! p) as Hfields.
  { apply (Hreq kind (Spec.required kind) p eq_refl); [|exact Hp].
    rewrite MUTATIONS_FORMAT_lookup. case_bool_decide as Hknown; [reflexivity|].
    exfalso. unfold Spec.MutationKind in Hknown.
    rewrite !elem_of_cons, elem_of_nil in Hknown. unfold Spec.required in Hp.
    repeat (case_bool_decide; [tauto|]). inversion Hp. }
  destruct Hc as [<- | [<- | []]]; cbn [Spec.violation];
    rewrite <- Hfields, ?Hkind, <- ?Hm; reflexivity.
Qed.

Lemma agree_spec_parse (es1 es2 : list Spec.entry) :
  Forall2 agree_on_required es1 es2 →
  match Spec.parse es1 with
  | inl c => Spec.parse es2 = inl c
  | inr _ => Spec.parse es2 = inr (Spec.descriptor_of <$> es2)
  end.
Proof.
  induction 1 as [|e1 e2 es1 es2 He _ IH]; [reflexivity|].
  cbn [Spec.parse]. rewrite <- (agree_first_violation e1 e2 He).
  destruct (Spec.first_violation e1 (Spec.checks_of e1)); [reflexivity|].
  destruct (Spec.parse es1) as [c|ds]; rewrite IH; reflexivity.
Qed.

(** C6, as the code has it.  Rejection: [parse_mutation_params] fails
    whenever an entry gives, for a parameter that its declared kind requires,
    a value outside the parameter's vocabulary (a ["field_name"] outside the
    field names in a [remove_field] or [modify_field] entry, a
    ["packet_type"] outside the packet types in a [send_additional_packet]
    entry); the failure is a [ValueError] when the elements before that entry
    are wire-format entries.  Pass-through: what the entry's kind does not
    require is not checked, ["field_name"] and ["packet_type"] included: two
    arrays of wire-format entries that agree, entry by entry, on the
    mutation, the target and the required parameters either fail with the
    same exception or both parse, and then each descriptor carries its own
    entry's fields whole. *)
Theorem enum_checked_only_for_required_parameters :
  ∀ (json_loads : string → decode_error + value) (format : value → string),
    (∀ (param_str : string) (entries : list value) (i : nat) (v : value)
       (e : Spec.entry) (kind p : string) (req : list string) (x : value),
        json_loads param_str = inr (VList entries) →
        entries !! i = Some v →
        entry_of v = Some e →
        Spec.e_mutation e = VStr kind →
        MUTATIONS_FORMAT !! kind = Some req →
        p ∈ req →
        Spec.e_fields e !! p = Some x →
        (p = "field_name" ∧ py_in_list x ALLOWED_FIELD_NAMES = false) ∨
        (p = "packet_type" ∧ py_in_list x ALLOWED_PACKET_TYPES = false) →
        (∃ exn, parse_mutation_params json_loads format param_str = Raise exn) ∧
        (∀ es, mapM entry_of (take i entries) = Some es →
           ∃ msg, parse_mutation_params json_loads format param_str
                    = Raise (ValueError msg))) ∧
    (∀ (text1 text2 : string) (entries1 entries2 : list value)
       (es1 es2 : list Spec.entry),
        json_loads text1 = inr (VList entries1) →
        json_loads text2 = inr (VList entries2) →
        mapM entry_of entries1 = Some es1 →
        mapM entry_of entries2 = Some es2 →
        Forall2 agree_on_required es1 es2 →
        match parse_mutation_params json_loads format text1 with
        | Raise exn => parse_mutation_params json_loads format text2 = Raise exn
        | Ok _ => parse_mutation_params json_loads format text2
                    = Ok (Spec.descriptor_of <$> es2)
        end).
Proof.
  intros json_loads format. split.
  - intros param_str entries i v e kind p req x
           Hloads Hi He Hkind Hreq Hp Hx Hbad.
    destruct (required_bad_enum_violates e kind p req x Hkind Hreq Hp Hx Hbad) as [c Hc].
    split.
    + destruct (parse_mutation_params json_loads format param_str) as [out|exn] eqn:Hrun;
        [exfalso|eauto].
      unfold parse_mutation_params in Hrun. rewrite Hloads in Hrun.
      cbn [py_iter bind] in Hrun.
      destruct (parse_loop_entry_Ok format entries [] out i v Hrun Hi) as [d Hd].
      rewrite (parse_entry_spec format v e He), Hc in Hd. discriminate.
    + intros es Hes. unfold parse_mutation_params. rewrite Hloads. cbn [py_iter bind].
      rewrite <- (take_drop_middle entries i v Hi), parse_loop_app.
      rewrite (parse_loop_spec format (take i entries) es [] Hes).
      destruct (Spec.parse es) as [c'|ds].
      * destruct (InvalidMutationSpec_is_ValueError format c') as [msg ->]. eauto.
      * cbn [parse_loop]. rewrite (parse_entry_spec format v e He), Hc. cbn [bind].
        destruct (InvalidMutationSpec_is_ValueError format c) as [msg ->]. eauto.
  - intros text1 text2 entries1 entries2 es1 es2 H1 H2 Hes1 Hes2 Hagree.
    rewrite (parse_mutation_params_spec json_loads format text1 entries1 es1 H1 Hes1).
    rewrite (parse_mutation_params_spec json_loads format text2 entries2 es2 H2 Hes2).
    pose proof (agree_spec_parse es1 es2 Hagree) as Hparse.
    destruct (Spec.parse es1) as [c|ds]; rewrite Hparse; reflexivity.
Qed.

(** C8.  When the decoder rejects the text, [parse_mutation_params] raises
    the decoder's own [JSONDecodeError]: it is an instance of [ValueError],
    like the exception of every validation failure, so one [except ValueError]
    catches them all, and it carries the decoder's message. *)
Theorem malformed_text_raises_value_error :
  ∀ (json_loads : string → decode_error + value) (format : value → string)
    (param_str : string) (e : decode_error),
    json_loads param_str = inl e →
    parse_mutation_params json_loads format param_str = Raise (JSONDecodeError e) ∧
    isinstance (JSONDecodeError e) cls_ValueError = true ∧
    exc_msg (JSONDecodeError e) = Some (de_msg e) ∧
    ∀ c : Spec.cause, isinstance (InvalidMutationSpec format c) cls_ValueError = true.
Proof.
  intros json_loads format param_str e Hloads. unfold parse_mutation_params.
  rewrite Hloads. repeat split. intros c. destruct c; reflexivity.
Qed.

(** ** From the validator to the engine *)

Lemma check_field_name_Ok (format : value → string) (mutation_type fields : value) :
  check_required_field format mutation_type fields "field_name" = Ok tt →
  ∃ (f : gmap string value) (name : string),
    fields = VDict f ∧ f !! "field_name" = Some (VStr name) ∧
    name ∈ ALLOWED_FIELD_NAMES.
Proof.
  unfold check_required_field.
  rewrite (bool_decide_eq_true_2 ("field_name" = "field_name")) by reflexivity.
  destruct fields as [| | |s| |l|f]; cbn [py_contains bind]; try discriminate.
  - destruct (is_substring "field_name" s); cbn [negb py_getitem bind]; discriminate.
  - destruct (existsb _ l); cbn [negb py_getitem bind]; discriminate.
  - case_bool_decide as Hin; cbn [negb]; [|discriminate].
    destruct Hin as [x Hx]. cbn [py_getitem]. rewrite Hx. cbn [bind].
    destruct (py_in_list x ALLOWED_FIELD_NAMES) eqn:Hallowed; cbn [negb bind];
      [|discriminate].
    apply py_in_list_true in Hallowed as (name & -> & Hname). eauto.
Qed.

Lemma check_present_Ok (format : value → string) (mutation_type : value)
    (f : gmap string value) (p : string) :
  check_required_field format mutation_type (VDict f) p = Ok tt → is_Some (f !! p).
Proof.
  unfold check_required_field. cbn [py_contains bind].
  case_bool_decide as Hin; cbn [negb]; [trivial | discriminate].
Qed.

Lemma descriptor_getitem (kind target fields : value) :
  let d := VDict (<["fields" := fields]>
                    (<["target" := target]> (<["mutation_type" := kind]> ∅))) in
  py_getitem d "target" = Ok target ∧
  py_getitem d "mutation_type" = Ok kind ∧
  py_getitem d "fields" = Ok fields.
Proof.
  intros d. subst d. cbn [py_getitem].
  rewrite lookup_insert_eq, !lookup_insert_ne, !lookup_insert_eq by discriminate.
  repeat split.
Qed.

(** What the validator lets through, the engine can take. *)
Lemma parse_entry_ready (format : value → string) (v d : value) :
  parse_entry format v = Ok d → engine_ready d.
Proof.
  unfold parse_entry. destruct v as [| | | | | |ed]; try discriminate.
  cbn [py_get bind].
  set (target := default VNone (ed !! "target")).
  set (fields := default (VDict ∅) (ed !! "fields")).
  destruct (default VNone (ed !! "mutation")) as [| | |s| | |]; try discriminate.
  cbn [py_in_keys py_dict_getitem bind]. rewrite MUTATIONS_FORMAT_lookup.
  destruct (bool_decide (s ∈ Spec.MutationKind));
    [|rewrite bool_decide_eq_false_2 by (intros [? ?]; discriminate); discriminate].
  rewrite bool_decide_eq_true_2 by eauto. cbn [negb].
  destruct (py_in_list target ["client"; "server"]); cbn [negb bind]; [|discriminate].
  intros H. apply bind_Ok_inv in H as ([] & Hloop & [= <-]).
  destruct (descriptor_getitem (VStr s) target fields) as (Ht & Hk & Hf).
  intros role m. rewrite mutate_body_eq, Ht, Hk, Hf.
  destruct (py_eq_str target role); [|eauto]. cbn [py_eq_str].
  case_bool_decide as Hrem.
  - subst s. change (Spec.required "remove_field") with ["field_name"] in Hloop.
    cbn [for_each] in Hloop. apply bind_Ok_inv in Hloop as ([] & Hname & _).
    apply check_field_name_Ok in Hname as (f & name & -> & Hname & Hallowed).
    cbn [py_getitem]. rewrite Hname, (assign_plain name) by
      (apply allowed_not_special, Hallowed). eauto.
  - case_bool_decide as Hmod; [|eauto].
    subst s. change (Spec.required "modify_field") with ["field_name"; "new_value"] in Hloop.
    cbn [for_each] in Hloop. apply bind_Ok_inv in Hloop as ([] & Hname & Hloop).
    apply bind_Ok_inv in Hloop as ([] & Hvalue & _).
    apply check_field_name_Ok in Hname as (f & name & Hfields & Hname & Hallowed).
    rewrite Hfields in Hvalue |- *.
    apply check_present_Ok in Hvalue as [new_value Hvalue].
    cbn [py_getitem]. rewrite Hname, Hvalue, (assign_plain name) by
      (apply allowed_not_special, Hallowed). eauto.
Qed.

Lemma for_each_e_ready (role : string) (ds : list value) (m : message) :
  Forall engine_ready ds →
  ∃ m', for_each_e (mutate_body role) ds m = (Ok tt, m').
Proof.
  intros Hds. revert m. induction Hds as [|d ds Hd _ IH]; intros m.
  - exists m. reflexivity.
  - rewrite for_each_e_cons. destruct (Hd role m) as [m1 ->]. apply IH.
Qed.

(** The step of an entry addressed to the role that lacks one of the two
    keys the engine reads next. *)
Lemma mutate_body_missing_key (role : string) (dm : gmap string value) (m : message) :
  dm !! "target" = Some (VStr role) →
  dm !! "mutation_type" = None ∨ dm !! "fields" = None →
  ∃ key, mutate_body role (VDict dm) m = (Raise (KeyError (VStr key)), m) ∧
         dm !! key = None ∧
         (key = "mutation_type" ∨ key = "fields").
Proof.
  intros Ht Hmiss. rewrite mutate_body_eq. cbn [py_getitem]. rewrite Ht.
  rewrite (proj2 (py_eq_str_true (VStr role) role) eq_refl).
  destruct (dm !! "mutation_type") as [kind|] eqn:Hk.
  - destruct Hmiss as [Hmiss|Hmiss]; [discriminate|]. rewrite Hmiss.
    exists "fields". auto.
  - exists "mutation_type". auto.
Qed.

(** C10.  The engine reads the key ["mutation_type"], the one
    [parse_mutation_params] writes.  On every list the validator returns,
    neither call raises, whatever the message.  But an entry addressed to
    the role being mutated that has no ["mutation_type"] key, or no
    ["fields"] key, such as an entry of the wire format (keyed ["mutation"])
    handed to the engine unparsed, stops the call with a [KeyError], a lookup
    error, for the missing key; the message stays as the descriptors before it
    left it. *)
Theorem engine_reads_mutation_type_key :
  ∀ (json_loads : string → decode_error + value) (format : value → string),
    (∀ (param_str : string) (mutation_list : list value) (m : message),
        parse_mutation_params json_loads format param_str = Ok mutation_list →
        (mutate_client_hello {| mutation_params := mutation_list |} m).1 = Ok tt ∧
        (mutate_server_hello {| mutation_params := mutation_list |} m).1 = Ok tt) ∧
    (∀ (pre post : list value) (dm : gmap string value) (m m1 : message),
        dm !! "mutation_type" = None ∨ dm !! "fields" = None →
        (dm !! "target" = Some (VStr "client") →
         mutate_client_hello {| mutation_params := pre |} m = (Ok tt, m1) →
         ∃ key,
           mutate_client_hello {| mutation_params := pre ++ VDict dm :: post |} m
             = (Raise (KeyError (VStr key)), m1) ∧
           dm !! key = None ∧
           isinstance (KeyError (VStr key)) cls_LookupError = true) ∧
        (dm !! "target" = Some (VStr "server") →
         mutate_server_hello {| mutation_params := pre |} m = (Ok tt, m1) →
         ∃ key,
           mutate_server_hello {| mutation_params := pre ++ VDict dm :: post |} m
             = (Raise (KeyError (VStr key)), m1) ∧
           dm !! key = None ∧
           isinstance (KeyError (VStr key)) cls_LookupError = true)).
Proof.
  intros json_loads format. split.
  - intros param_str mutation_list m Hparse.
    apply parse_mutation_params_Ok_inv in Hparse as [items Hloop].
    assert (Forall engine_ready mutation_list) as Hready.
    { apply (parse_loop_Forall format engine_ready items [] mutation_list);
        [apply parse_entry_ready | constructor | exact Hloop]. }
    rewrite mutate_client_hello_body, mutate_server_hello_body. cbn [mutation_params].
    destruct (for_each_e_ready "client" mutation_list m Hready) as [mc ->].
    destruct (for_each_e_ready "server" mutation_list m Hready) as [ms ->].
    split; reflexivity.
  - intros pre post dm m m1 Hmiss.
    assert (∀ role, dm !! "target" = Some (VStr role) →
            for_each_e (mutate_body role) pre m = (Ok tt, m1) →
            ∃ key, for_each_e (mutate_body role) (pre ++ VDict dm :: post) m
                     = (Raise (KeyError (VStr key)), m1) ∧
                   dm !! key = None ∧
                   isinstance (KeyError (VStr key)) cls_LookupError = true) as Hrole.
    { intros role Ht Hpre.
      destruct (mutate_body_missing_key role dm m1 Ht Hmiss) as (key & Hstep & Hkey & _).
      exists key. rewrite for_each_e_app, Hpre, for_each_e_cons, Hstep.
      repeat split. exact Hkey. }
    split; intros Ht Hpre; [rewrite mutate_client_hello_body in * |
                            rewrite mutate_server_hello_body in *];
      apply Hrole; assumption.
Qed.

(** ** The validator's claims on the sample texts *)

Lemma valid_text_parses_in_order_witness :
  ∃ mutation_list,
    parse_mutation_params sample_loads sample_format scenario_text = Ok mutation_list ∧
    length mutation_list = length scenario_wire ∧
    ∀ (i : nat) (v : value),
      scenario_wire !! i = Some v →
      ∃ e, entry_of v = Some e ∧ mutation_list !! i = Some (Spec.descriptor_of e).
Proof.
  apply (valid_text_parses_in_order sample_loads sample_format scenario_text
           scenario_wire scenario_entries).
  - vm_compute. reflexivity.
  - vm_compute. reflexivity.
  - repeat constructor.
Defined.

Lemma validation_is_ordered_and_fails_fast_witness :
  parse_mutation_params sample_loads sample_format several_errors_text
    = Raise (ValueError "Invalid mutation type: bogus").
Proof.
  destruct (validation_is_ordered_and_fails_fast sample_loads sample_format
              several_errors_text several_errors_wire several_errors_entries)
    as [Hspec _].
  - vm_compute. reflexivity.
  - vm_compute. reflexivity.
  - rewrite Hspec. vm_compute. reflexivity.
Defined.

(** C6 as stated fails: an [identity] entry may carry any ["field_name"]. *)
Lemma stray_field_name_is_accepted :
  parse_mutation_params sample_loads sample_format stray_field_name_text
    = Ok [descriptor "identity" "client" {[ "field_name" := VStr "not_a_real_field" ]}] ∧
  py_in_list (VStr "not_a_real_field") ALLOWED_FIELD_NAMES = false ∧
  ¬ rejects_every_supplied_bad_enum sample_loads sample_format.
Proof.
  assert (parse_mutation_params sample_loads sample_format stray_field_name_text
            = Ok [descriptor "identity" "client"
                    {[ "field_name" := VStr "not_a_real_field" ]}]) as Hrun
    by (vm_compute; reflexivity).
  split; [exact Hrun|]. split; [vm_compute; reflexivity|].
  intros Hclaim.
  destruct (Hclaim stray_field_name_text
              [wire_entry "identity" "client" {[ "field_name" := VStr "not_a_real_field" ]}]
              {[ "mutation" := VStr "identity"; "target" := VStr "client";
                 "fields" := VDict {[ "field_name" := VStr "not_a_real_field" ]} ]}
              {[ "field_name" := VStr "not_a_real_field" ]}) as [msg Hmsg].
  - vm_compute. reflexivity.
  - apply elem_of_cons. left. reflexivity.
  - vm_compute. reflexivity.
  - left. exists (VStr "not_a_real_field"). split; vm_compute; reflexivity.
  - rewrite Hrun in Hmsg. discriminate Hmsg.
Qed.

Lemma clean_agrees_with_stray : Forall2 agree_on_required clean_entries stray_entries.
Proof.
  repeat constructor; cbn [Spec.e_mutation Spec.e_fields];
    intros kind req p [= <-] Hreq Hp; vm_compute in Hreq; injection Hreq as <-.
  - inversion Hp.
  - apply list_elem_of_singleton in Hp as ->. vm_compute. reflexivity.
Defined.

Lemma enum_checked_only_for_required_parameters_witness :
  (∃ msg, parse_mutation_params sample_loads sample_format bad_field_name_text
            = Raise (ValueError msg)) ∧
  parse_mutation_params stray_loads sample_format "stray"
    = Ok (Spec.descriptor_of <$> stray_entries).
Proof.
  split.
  - destruct (enum_checked_only_for_required_parameters sample_loads sample_format)
      as [Hrejected _].
    destruct (Hrejected bad_field_name_text [bad_field_name_wire] 0 bad_field_name_wire
                bad_field_name_entry "remove_field" "field_name" ["field_name"]
                (VStr "not_a_real_field"))
      as [_ Hvalue].
    + vm_compute. reflexivity.
    + reflexivity.
    + vm_compute. reflexivity.
    + reflexivity.
    + vm_compute. reflexivity.
    + apply elem_of_cons. left. reflexivity.
    + vm_compute. reflexivity.
    + left. split; [reflexivity | vm_compute; reflexivity].
    + apply (Hvalue []). reflexivity.
  - destruct (enum_checked_only_for_required_parameters stray_loads sample_format)
      as [_ Hpassed].
    pose proof (Hpassed "clean" "stray" clean_wire stray_wire clean_entries stray_entries
                  eq_refl eq_refl eq_refl eq_refl clean_agrees_with_stray) as Hboth.
    assert (parse_mutation_params stray_loads sample_format "clean"
              = Ok (Spec.descriptor_of <$> clean_entries)) as Hclean
      by (vm_compute; reflexivity).
    rewrite Hclean in Hboth. exact Hboth.
Defined.

Lemma malformed_text_raises_value_error_witness :
  parse_mutation_params sample_loads sample_format truncated_text
    = Raise (JSONDecodeError (DecodeError "Expecting value" truncated_text 0)) ∧
  isinstance (JSONDecodeError (DecodeError "Expecting value" truncated_text 0))
    cls_ValueError = true.
Proof.
  destruct (malformed_text_raises_value_error sample_loads sample_format truncated_text
              (DecodeError "Expecting value" truncated_text 0))
    as (Hrun & Hinst & _).
  - vm_compute. reflexivity.
  - split; [exact Hrun | exact Hinst].
Defined.

Lemma engine_reads_mutation_type_key_witness :
  ((mutate_client_hello {| mutation_params := [remove_alpn; modify_random] |}
      sample_client_hello).1 = Ok tt ∧
   (mutate_server_hello {| mutation_params := [remove_alpn; modify_random] |}
      sample_server_hello).1 = Ok tt) ∧
  ∃ key,
    mutate_client_hello {| mutation_params := [] ++ VDict raw_remove_alpn :: [] |}
        sample_client_hello
      = (Raise (KeyError (VStr key)), sample_client_hello) ∧
    raw_remove_alpn !! key = None ∧
    isinstance (KeyError (VStr key)) cls_LookupError = true.
Proof.
  destruct (engine_reads_mutation_type_key sample_loads sample_format)
    as [Hparsed Hraw].
  split.
  - split.
    + apply (Hparsed scenario_text [remove_alpn; modify_random] sample_client_hello).
      vm_compute. reflexivity.
    + apply (Hparsed scenario_text [remove_alpn; modify_random] sample_server_hello).
      vm_compute. reflexivity.
  - apply (Hraw [] [] raw_remove_alpn sample_client_hello sample_client_hello).
    + left. vm_compute. reflexivity.
    + vm_compute. reflexivity.
    + reflexivity.
Defined.

(** * Further properties of the engine *)

#[local] Set Warnings "-clear-no-such-hyp".

(** A run of descriptors that name allowed fields overlays the message with
    a map of writes.  The outcome and the writes are the same for every
    message that has the same fields, and only fields the message has are
    written. *)
Lemma for_each_e_overlay (role : string) (ds : list value) (m : message) :
  names_allowed_fields ds →
  ∃ (o : result unit) (W : message),
    dom W ⊆ dom m ∧
    ∀ m2 : message, dom m2 = dom m →
      for_each_e (mutate_body role) ds m2 = (o, W ∪ m2).
Proof.
  revert m. induction ds as [|d ds IH]; intros m Hds.
  - exists (Ok tt), ∅. split; [set_solver|].
    intros m2 _. cbn. unfold ret. rewrite (left_id_L ∅ (∪)). reflexivity.
  - assert (names_allowed_fields ds) as Hrest
      by (intros d' n Hd'; apply Hds; apply elem_of_cons; right; exact Hd').
    destruct (mutate_body_shape role d) as [[r Hr]|(name & v & Hnames & Hset)].
    + destruct r as [[]|e].
      * destruct (IH m Hrest) as (o & W & HW & Hrun). exists o, W. split; [exact HW|].
        intros m2 Hdom. rewrite for_each_e_cons, Hr. apply Hrun, Hdom.
      * exists (Raise e), ∅. split; [set_solver|].
        intros m2 _. rewrite for_each_e_cons, Hr, (left_id_L ∅ (∪)). reflexivity.
    + assert (name ∉ special_attributes) as Hplain
        by (apply allowed_not_special, (Hds d name); [left | exact Hnames]).
      destruct (decide (is_Some (m !! name))) as [Hexp|Hexp].
      * destruct (IH (<[name := v]> m) Hrest) as (o & W & HW & Hrun).
        assert (name ∈ dom m) as Hin by (apply elem_of_dom; exact Hexp).
        exists o, (W ∪ {[name := v]}). split.
        { rewrite dom_union_L, dom_singleton_L. rewrite dom_insert_L in HW. set_solver. }
        intros m2 Hdom. rewrite for_each_e_cons, Hset, (assign_plain name v m2 Hplain).
        rewrite bool_decide_eq_true_2
          by (apply elem_of_dom; rewrite Hdom; exact Hin).
        rewrite Hrun by (rewrite !dom_insert_L, Hdom; reflexivity).
        rewrite insert_union_singleton_l, (assoc_L (∪)). reflexivity.
      * destruct (IH m Hrest) as (o & W & HW & Hrun). exists o, W. split; [exact HW|].
        intros m2 Hdom. rewrite for_each_e_cons, Hset, (assign_plain name v m2 Hplain).
        rewrite bool_decide_eq_false_2.
        -- apply Hrun, Hdom.
        -- intros Hexp2. apply Hexp. apply elem_of_dom. rewrite <- Hdom.
           apply elem_of_dom. exact Hexp2.
Qed.

Lemma for_each_e_dom (role : string) (ds : list value) (m : message) :
  names_allowed_fields ds →
  dom (for_each_e (mutate_body role) ds m).2 = dom m.
Proof.
  intros Hds. destruct (for_each_e_overlay role ds m Hds) as (o & W & HW & Hrun).
  rewrite (Hrun m eq_refl). cbn [snd]. rewrite dom_union_L. set_solver.
Qed.

Lemma for_each_e_twice (role : string) (ds : list value) (m : message) :
  names_allowed_fields ds →
  for_each_e (mutate_body role) ds (for_each_e (mutate_body role) ds m).2 =
    for_each_e (mutate_body role) ds m.
Proof.
  intros Hds. destruct (for_each_e_overlay role ds m Hds) as (o & W & HW & Hrun).
  rewrite (Hrun m eq_refl). cbn [snd].
  rewrite Hrun by (rewrite dom_union_L; set_solver).
  rewrite (assoc_L (∪)), (idemp_L (∪)). reflexivity.
Qed.

(** On two messages with the same fields a run has the same outcome and
    leaves messages with the same fields, whatever the descriptors. *)
Lemma for_each_e_same_dom (role : string) (ds : list value) (m m2 : message) :
  dom m2 = dom m →
  (for_each_e (mutate_body role) ds m2).1 = (for_each_e (mutate_body role) ds m).1 ∧
  dom (for_each_e (mutate_body role) ds m2).2 =
    dom (for_each_e (mutate_body role) ds m).2.
Proof.
  revert m m2. induction ds as [|d ds IH]; intros m m2 Hdom; [split; [reflexivity|exact Hdom]|].
  rewrite !for_each_e_cons.
  destruct (mutate_body_shape role d) as [[r Hr]|(name & v & _ & Hset)].
  - rewrite !Hr. destruct r as [[]|e]; [apply IH, Hdom | split; [reflexivity|exact Hdom]].
  - rewrite !Hset. destruct (assign_dom name v m m2 Hdom) as [Hout Hdom'].
    destruct (assign name v m) as [o m'], (assign name v m2) as [o2 m2'].
    cbn [fst snd] in Hout, Hdom'. subst o2.
    destruct o as [[]|e]; [apply IH, Hdom' | split; [reflexivity|exact Hdom']].
Qed.

(** X1.  A call on a list [l1 ++ l2] is the call on [l1] followed, when
    that one raised nothing, by the call on [l2] on the message it left; when
    the call on [l1] raises, that is the outcome, [l2] is not looked at, and
    what [l1] had already written stays written. *)
Theorem mutate_concatenation :
  ∀ (l1 l2 : list value) (m : message),
    mutate_client_hello {| mutation_params := l1 ++ l2 |} m =
      match mutate_client_hello {| mutation_params := l1 |} m with
      | (Ok _, m1) => mutate_client_hello {| mutation_params := l2 |} m1
      | (Raise e, m1) => (Raise e, m1)
      end ∧
    mutate_server_hello {| mutation_params := l1 ++ l2 |} m =
      match mutate_server_hello {| mutation_params := l1 |} m with
      | (Ok _, m1) => mutate_server_hello {| mutation_params := l2 |} m1
      | (Raise e, m1) => (Raise e, m1)
      end.
Proof.
  intros l1 l2 m. rewrite !mutate_client_hello_body, !mutate_server_hello_body.
  cbn [mutation_params]. split; apply for_each_e_app.
Qed.

(** X2.  When every field the descriptors name is one of the allowed field
    names, the message exposes the same fields after the call as before,
    whether the call returns or raises: the engine adds no field and deletes
    none (a removed field is still there, holding [None]). *)
Theorem engine_keeps_exposed_fields :
  ∀ (ds : list value) (m : message) (name : string),
    names_allowed_fields ds →
    (exposes (mutate_client_hello {| mutation_params := ds |} m).2 name ↔ exposes m name) ∧
    (exposes (mutate_server_hello {| mutation_params := ds |} m).2 name ↔ exposes m name).
Proof.
  intros ds m name Hds. rewrite mutate_client_hello_body, mutate_server_hello_body.
  cbn [mutation_params]. unfold exposes.
  rewrite <- !elem_of_dom, !for_each_e_dom by exact Hds. split; reflexivity.
Qed.

(** X3.  Whether a call raises, and what it raises, depends on the
    descriptors and on which fields the message exposes, not on the values
    the fields hold. *)
Theorem engine_outcome_depends_on_exposed_fields :
  ∀ (ds : list value) (m m2 : message),
    dom m2 = dom m →
    (mutate_client_hello {| mutation_params := ds |} m2).1 =
      (mutate_client_hello {| mutation_params := ds |} m).1 ∧
    (mutate_server_hello {| mutation_params := ds |} m2).1 =
      (mutate_server_hello {| mutation_params := ds |} m).1.
Proof.
  intros ds m m2 Hdom. rewrite !mutate_client_hello_body, !mutate_server_hello_body.
  cbn [mutation_params]. split; apply for_each_e_same_dom, Hdom.
Qed.

(** X4.  When every field the descriptors name is one of the allowed field
    names, applying the whole list a second time, to the message the first
    application left, gives the first application's outcome and message
    again, in both calls. *)
Theorem descriptor_list_idempotent :
  ∀ (ds : list value) (m : message),
    names_allowed_fields ds →
    mutate_client_hello {| mutation_params := ds |}
        (mutate_client_hello {| mutation_params := ds |} m).2 =
      mutate_client_hello {| mutation_params := ds |} m ∧
    mutate_server_hello {| mutation_params := ds |}
        (mutate_server_hello {| mutation_params := ds |} m).2 =
      mutate_server_hello {| mutation_params := ds |} m.
Proof.
  intros ds m Hds. rewrite !mutate_client_hello_body, !mutate_server_hello_body.
  cbn [mutation_params]. split; apply for_each_e_twice, Hds.
Qed.

(** One step leaves alone every field that the descriptor does not name,
    when what it names is a field name. *)
Lemma mutate_body_frame (role : string) (d : value) (name : string) (m : message) :
  (∀ n, names_field d n → n ∉ special_attributes) →
  ¬ names_field d name →
  (mutate_body role d m).2 !! name = m !! name.
Proof.
  intros Hplain Hnot.
  destruct (mutate_body_shape role d) as [[r Hr]|(n & v & Hn & Hset)].
  - rewrite Hr. reflexivity.
  - rewrite Hset, (assign_plain n v m (Hplain n Hn)). cbn [snd].
    case_bool_decide; [|reflexivity].
    apply lookup_insert_ne. intros ->. exact (Hnot Hn).
Qed.

Lemma for_each_e_frame (role : string) (ds : list value) (name : string) (m : message) :
  (∀ d n, d ∈ ds → names_field d n → n ∉ special_attributes) →
  (∀ d, d ∈ ds → ¬ names_field d name) →
  (for_each_e (mutate_body role) ds m).2 !! name = m !! name.
Proof.
  revert m. induction ds as [|d ds IH]; intros m Hplain Hds; [reflexivity|].
  rewrite for_each_e_cons.
  pose proof (mutate_body_frame role d name m
                (fun n => Hplain d n (list_elem_of_here d ds))
                (Hds d (list_elem_of_here d ds))) as Hstep.
  destruct (mutate_body role d m) as [[[]|e] m1]; cbn [snd] in *; [|exact Hstep].
  rewrite IH; [exact Hstep | |].
  - intros d' n Hd'. apply Hplain. apply elem_of_cons. right. exact Hd'.
  - intros d' Hd'. apply Hds. apply elem_of_cons. right. exact Hd'.
Qed.

(** X5.  When every field the descriptors name is one of the allowed field
    names, a field that no [remove_field] or [modify_field] descriptor of
    the list names keeps its value through the call, whether the call
    returns or raises. *)
Theorem engine_leaves_unnamed_fields :
  ∀ (ds : list value) (name : string) (m : message),
    names_allowed_fields ds →
    (∀ d, d ∈ ds → ¬ names_field d name) →
    (mutate_client_hello {| mutation_params := ds |} m).2 !! name = m !! name ∧
    (mutate_server_hello {| mutation_params := ds |} m).2 !! name = m !! name.
Proof.
  intros ds name m Hallowed Hds.
  rewrite mutate_client_hello_body, mutate_server_hello_body.
  cbn [mutation_params].
  split; apply for_each_e_frame; try exact Hds;
    intros d n Hd Hn; exact (allowed_not_special n (Hallowed d n Hd Hn)).
Qed.

Lemma mutate_body_writes (role : string) (d : value) (name : string) (v : value)
    (m : message) :
  name ∉ special_attributes →
  writes role d name v →
  mutate_body role d m =
    (Ok tt, if bool_decide (is_Some (m !! name)) then <[name := v]> m else m).
Proof.
  intros Hplain (fields & Ht & Hf & Hn & [[Hk ->]|[Hk Hv]]).
  - apply (mutate_body_remove_field role d (VStr role) fields name m); try assumption.
    apply py_eq_str_true. reflexivity.
  - apply (mutate_body_modify_field role d (VStr role) fields v name m); try assumption.
    apply py_eq_str_true. reflexivity.
Qed.

(** X6.  Of two descriptors addressed to the role that write the same
    allowed field, the later one decides: the pair acts as the later one
    alone.  In particular a [modify_field] after a [remove_field] of the same
    field still takes effect, because the removed field is still exposed. *)
Theorem later_write_wins :
  ∀ (d1 d2 : value) (name : string) (v1 v2 : value) (m : message),
    name ∈ ALLOWED_FIELD_NAMES →
    (writes "client" d1 name v1 → writes "client" d2 name v2 →
     mutate_client_hello {| mutation_params := [d1; d2] |} m =
       mutate_client_hello {| mutation_params := [d2] |} m) ∧
    (writes "server" d1 name v1 → writes "server" d2 name v2 →
     mutate_server_hello {| mutation_params := [d1; d2] |} m =
       mutate_server_hello {| mutation_params := [d2] |} m).
Proof.
  intros d1 d2 name v1 v2 m Hname. apply allowed_not_special in Hname.
  assert (∀ role, writes role d1 name v1 → writes role d2 name v2 →
          for_each_e (mutate_body role) [d1; d2] m =
            for_each_e (mutate_body role) [d2] m) as Hrole.
  { intros role H1 H2.
    rewrite for_each_e_cons, (mutate_body_writes role d1 name v1 m Hname H1).
    rewrite !for_each_e_singleton.
    rewrite !(mutate_body_writes role d2 name v2 _ Hname H2).
    destruct (decide (is_Some (m !! name))) as [Hexp|Hexp].
    - rewrite (bool_decide_eq_true_2 (is_Some (m !! name))) by exact Hexp.
      rewrite bool_decide_eq_true_2 by (rewrite lookup_insert_eq; eauto).
      rewrite insert_insert_eq. reflexivity.
    - rewrite !(bool_decide_eq_false_2 (is_Some (m !! name))) by exact Hexp.
      reflexivity. }
  rewrite !mutate_client_hello_body, !mutate_server_hello_body. cbn [mutation_params].
  split; apply Hrole.
Qed.

Lemma mutate_body_writes_assign (role : string) (d : value) (name : string)
    (v : value) (m : message) :
  writes role d name v → mutate_body role d m = assign name v m.
Proof.
  intros (fields & Ht & Hf & Hn & [[Hk ->]|[Hk Hv]]);
    rewrite mutate_body_eq, Ht, Hk, Hf;
    rewrite (proj2 (py_eq_str_true (VStr role) role) eq_refl); cbn [py_eq_str].
  - rewrite bool_decide_eq_true_2 by reflexivity. rewrite Hn. reflexivity.
  - rewrite bool_decide_eq_false_2 by discriminate.
    rewrite bool_decide_eq_true_2 by reflexivity. rewrite Hn, Hv. reflexivity.
Qed.

(** X19.  A descriptor addressed to the role that writes one of the special
    attributes does not bind it: [__class__] raises [TypeError] whatever the
    value, [__weakref__] raises [AttributeError], and [__dict__] raises
    [TypeError] for a value that is not a dict, so for every [remove_field];
    the message is left as it was, whatever fields it has. *)
Theorem special_attributes_are_not_bound :
  ∀ (d : value) (name : string) (v : value) (m : message),
    (writes "client" d name v →
     (name = "__class__" →
      mutate_client_hello {| mutation_params := [d] |} m = (Raise TypeError, m)) ∧
     (name = "__weakref__" →
      mutate_client_hello {| mutation_params := [d] |} m = (Raise AttributeError, m)) ∧
     (name = "__dict__" → (∀ dm, v ≠ VDict dm) →
      mutate_client_hello {| mutation_params := [d] |} m = (Raise TypeError, m))) ∧
    (writes "server" d name v →
     (name = "__class__" →
      mutate_server_hello {| mutation_params := [d] |} m = (Raise TypeError, m)) ∧
     (name = "__weakref__" →
      mutate_server_hello {| mutation_params := [d] |} m = (Raise AttributeError, m)) ∧
     (name = "__dict__" → (∀ dm, v ≠ VDict dm) →
      mutate_server_hello {| mutation_params := [d] |} m = (Raise TypeError, m))).
Proof.
  intros d name v m.
  rewrite !mutate_client_hello_body, !mutate_server_hello_body. cbn [mutation_params].
  rewrite !for_each_e_singleton.
  split; intros Hw; rewrite (mutate_body_writes_assign _ d name v m Hw), assign_eq;
    (split; [intros ->; reflexivity|]); (split; [intros ->; reflexivity|]);
    intros -> Hv; destruct v as [| | | | | |dm]; try reflexivity;
    destruct (Hv dm eq_refl).
Qed.

(** X7.  An element of the list that is not a dict, or a dict without a
    ["target"] key, stops either call: with [TypeError] for a non-dict, with
    [KeyError] for the missing ["target"], whichever role the rest of the
    element may be meant for.  The message stays as the descriptors before it
    left it and the ones after it are not applied. *)
Theorem descriptor_without_target_raises :
  ∀ (pre post : list value) (d : value) (m m1 : message),
    match d with
    | VDict dm => dm !! "target" = None
    | _ => True
    end →
    (mutate_client_hello {| mutation_params := pre |} m = (Ok tt, m1) →
     mutate_client_hello {| mutation_params := pre ++ d :: post |} m =
       (Raise (match d with
               | VDict _ => KeyError (VStr "target")
               | _ => TypeError
               end), m1)) ∧
    (mutate_server_hello {| mutation_params := pre |} m = (Ok tt, m1) →
     mutate_server_hello {| mutation_params := pre ++ d :: post |} m =
       (Raise (match d with
               | VDict _ => KeyError (VStr "target")
               | _ => TypeError
               end), m1)).
Proof.
  intros pre post d m m1 Hd.
  assert (∀ role,
          for_each_e (mutate_body role) pre m = (Ok tt, m1) →
          for_each_e (mutate_body role) (pre ++ d :: post) m =
            (Raise (match d with
                    | VDict _ => KeyError (VStr "target")
                    | _ => TypeError
                    end), m1)) as Hrole.
  { intros role Hpre. rewrite for_each_e_app, Hpre, for_each_e_cons, mutate_body_eq.
    destruct d as [| | | | | |dm]; try reflexivity.
    cbn [py_getitem]. rewrite Hd. reflexivity. }
  rewrite !mutate_client_hello_body, !mutate_server_hello_body. cbn [mutation_params].
  split; apply Hrole.
Qed.

(** The step of a [remove_field] or [modify_field] descriptor addressed to
    the role whose fields object is incomplete or names no field. *)
Lemma mutate_body_incomplete (role : string) (d : value) (kind : string)
    (f : gmap string value) (m : message) :
  py_getitem d "target" = Ok (VStr role) →
  py_getitem d "mutation_type" = Ok (VStr kind) →
  py_getitem d "fields" = Ok (VDict f) →
  (kind = "remove_field" ∨ kind = "modify_field" →
   f !! "field_name" = None →
   mutate_body role d m = (Raise (KeyError (VStr "field_name")), m)) ∧
  (kind = "modify_field" →
   is_Some (f !! "field_name") →
   f !! "new_value" = None →
   mutate_body role d m = (Raise (KeyError (VStr "new_value")), m)) ∧
  (∀ x : value,
     kind = "remove_field" ∨ (kind = "modify_field" ∧ is_Some (f !! "new_value")) →
     f !! "field_name" = Some x →
     (∀ s, x ≠ VStr s) →
     mutate_body role d m = (Raise TypeError, m)).
Proof.
  intros Ht Hk Hf. rewrite mutate_body_eq, Ht, Hk, Hf.
  rewrite (proj2 (py_eq_str_true (VStr role) role) eq_refl). cbn [py_eq_str py_getitem].
  repeat split.
  - intros [->| ->] Hn; rewrite Hn.
    + rewrite bool_decide_eq_true_2 by reflexivity. reflexivity.
    + rewrite bool_decide_eq_false_2 by discriminate.
      rewrite bool_decide_eq_true_2 by reflexivity. reflexivity.
  - intros -> [x Hx] Hv. rewrite Hx, Hv.
    rewrite bool_decide_eq_false_2 by discriminate.
    rewrite bool_decide_eq_true_2 by reflexivity. reflexivity.
  - intros x [-> | [-> [v Hv]]] Hx Hnot; rewrite Hx.
    + rewrite bool_decide_eq_true_2 by reflexivity.
      destruct x as [| | |s| | |]; try reflexivity. destruct (Hnot s eq_refl).
    + rewrite bool_decide_eq_false_2 by discriminate.
      rewrite bool_decide_eq_true_2 by reflexivity. rewrite Hv.
      destruct x as [| | |s| | |]; try reflexivity. destruct (Hnot s eq_refl).
Qed.

(** X8.  A [remove_field] or [modify_field] descriptor addressed to the role
    whose fields object has no ["field_name"] raises [KeyError] for it; a
    [modify_field] one that has a ["field_name"] but no ["new_value"] raises
    [KeyError] for ["new_value"]; one whose ["field_name"] is not a [str]
    raises [TypeError].  In each case the message is not touched. *)
Theorem incomplete_fields_raise :
  ∀ (d : value) (kind : string) (f : gmap string value) (m : message),
    py_getitem d "mutation_type" = Ok (VStr kind) →
    py_getitem d "fields" = Ok (VDict f) →
    (py_getitem d "target" = Ok (VStr "client") →
     (kind = "remove_field" ∨ kind = "modify_field" →
      f !! "field_name" = None →
      mutate_client_hello {| mutation_params := [d] |} m
        = (Raise (KeyError (VStr "field_name")), m)) ∧
     (kind = "modify_field" →
      is_Some (f !! "field_name") →
      f !! "new_value" = None →
      mutate_client_hello {| mutation_params := [d] |} m
        = (Raise (KeyError (VStr "new_value")), m)) ∧
     (∀ x : value,
        kind = "remove_field" ∨ (kind = "modify_field" ∧ is_Some (f !! "new_value")) →
        f !! "field_name" = Some x →
        (∀ s, x ≠ VStr s) →
        mutate_client_hello {| mutation_params := [d] |} m = (Raise TypeError, m))) ∧
    (py_getitem d "target" = Ok (VStr "server") →
     (kind = "remove_field" ∨ kind = "modify_field" →
      f !! "field_name" = None →
      mutate_server_hello {| mutation_params := [d] |} m
        = (Raise (KeyError (VStr "field_name")), m)) ∧
     (kind = "modify_field" →
      is_Some (f !! "field_name") →
      f !! "new_value" = None →
      mutate_server_hello {| mutation_params := [d] |} m
        = (Raise (KeyError (VStr "new_value")), m)) ∧
     (∀ x : value,
        kind = "remove_field" ∨ (kind = "modify_field" ∧ is_Some (f !! "new_value")) →
        f !! "field_name" = Some x →
        (∀ s, x ≠ VStr s) →
        mutate_server_hello {| mutation_params := [d] |} m = (Raise TypeError, m))).
Proof.
  intros d kind f m Hk Hf.
  rewrite !mutate_client_hello_body, !mutate_server_hello_body. cbn [mutation_params].
  rewrite !for_each_e_singleton.
  split; intros Ht; exact (mutate_body_incomplete _ d kind f m Ht Hk Hf).
Qed.

Lemma retarget_getitem (d : value) (k : string) :
  k ≠ "target" → py_getitem (retarget d) k = py_getitem d k.
Proof.
  intros Hk. destruct d as [| | | | | |dm]; try reflexivity. cbn [retarget].
  destruct (dm !! "target") as [target|]; [|reflexivity].
  destruct (py_eq_str target "client");
    [|destruct (py_eq_str target "server"); [|reflexivity]];
    cbn [py_getitem]; rewrite lookup_insert_ne by congruence; reflexivity.
Qed.

Lemma mutate_body_retarget (d : value) (m : message) :
  mutate_body "server" d m = mutate_body "client" (retarget d) m.
Proof.
  rewrite !mutate_body_eq.
  rewrite !(retarget_getitem d "mutation_type"), !(retarget_getitem d "fields")
    by discriminate.
  destruct d as [| | | | | |dm]; try reflexivity. cbn [retarget py_getitem].
  destruct (dm !! "target") as [target|] eqn:Ht; cbn [py_getitem]; [|rewrite Ht; reflexivity].
  destruct (py_eq_str target "client") eqn:Hc.
  - apply py_eq_str_true in Hc as ->. cbn [py_getitem].
    rewrite lookup_insert_eq. reflexivity.
  - destruct (py_eq_str target "server") eqn:Hs; cbn [py_getitem].
    + rewrite lookup_insert_eq. reflexivity.
    + rewrite Ht, Hc. reflexivity.
Qed.

(** X9.  The two methods are the same engine up to the role: the server
    call on a list does what the client call does on the list with
    ["client"] and ["server"] exchanged in every target. *)
Theorem server_call_is_client_call_retargeted :
  ∀ (ds : list value) (m : message),
    mutate_server_hello {| mutation_params := ds |} m =
      mutate_client_hello {| mutation_params := retarget <$> ds |} m.
Proof.
  intros ds m. rewrite mutate_client_hello_body, mutate_server_hello_body.
  cbn [mutation_params]. revert m.
  induction ds as [|d ds IH]; intros m; [reflexivity|].
  rewrite fmap_cons, !for_each_e_cons, mutate_body_retarget.
  destruct (mutate_body "client" (retarget d) m) as [[[]|e] m1]; [apply IH | reflexivity].
Qed.

(** * Further properties of the validator *)

Lemma check_packet_type_allowed (format : value → string) (mutation_type fields : value) :
  check_required_field format mutation_type fields "packet_type" = Ok tt →
  ∃ (f : gmap string value) (t : string),
    fields = VDict f ∧ f !! "packet_type" = Some (VStr t) ∧
    t ∈ ALLOWED_PACKET_TYPES.
Proof.
  unfold check_required_field.
  rewrite (bool_decide_eq_false_2 ("packet_type" = "field_name")) by discriminate.
  rewrite (bool_decide_eq_true_2 ("packet_type" = "packet_type")) by reflexivity.
  destruct fields as [| | |s| |l|f]; cbn [py_contains bind]; try discriminate.
  - destruct (is_substring "packet_type" s); cbn [negb py_getitem bind]; discriminate.
  - destruct (existsb _ l); cbn [negb py_getitem bind]; discriminate.
  - case_bool_decide as Hin; cbn [negb]; [|discriminate].
    destruct Hin as [x Hx]. cbn [py_getitem]. rewrite Hx. cbn [bind].
    destruct (py_in_list x ALLOWED_PACKET_TYPES) eqn:Hallowed; cbn [negb bind];
      [|discriminate].
    apply py_in_list_true in Hallowed as (t & -> & Ht). eauto.
Qed.

Lemma parse_entry_validated (format : value → string) (v d : value) :
  parse_entry format v = Ok d → validated d.
Proof.
  unfold parse_entry. destruct v as [| | | | | |ed]; try discriminate.
  cbn [py_get bind].
  set (target := default VNone (ed !! "target")).
  set (fields := default (VDict ∅) (ed !! "fields")).
  destruct (default VNone (ed !! "mutation")) as [| | |s| | |]; try discriminate.
  cbn [py_in_keys py_dict_getitem bind]. rewrite MUTATIONS_FORMAT_lookup.
  destruct (bool_decide (s ∈ Spec.MutationKind)) eqn:Hkind;
    [|rewrite bool_decide_eq_false_2 by (intros [? ?]; discriminate); discriminate].
  apply bool_decide_eq_true in Hkind.
  rewrite bool_decide_eq_true_2 by eauto. cbn [negb].
  destruct (py_in_list target ["client"; "server"]) eqn:Htarget; cbn [negb bind];
    [|discriminate].
  apply py_in_list_true in Htarget as (t & -> & Ht).
  intros H. apply bind_Ok_inv in H as ([] & Hloop & [= <-]).
  exists s, t, fields. split; [reflexivity|]. split.
  { rewrite !elem_of_cons, elem_of_nil in Ht. tauto. }
  unfold Spec.MutationKind in Hkind. rewrite !elem_of_cons, elem_of_nil in Hkind.
  destruct Hkind as [->|[->|[->|[->|[]]]]].
  - left. reflexivity.
  - right. left. split; [reflexivity|].
    change (Spec.required "remove_field") with ["field_name"] in Hloop.
    cbn [for_each] in Hloop. apply bind_Ok_inv in Hloop as ([] & Hname & _).
    apply check_field_name_Ok in Hname as (f & n & Hf & Hn & Hin). eauto.
  - right. right. left. split; [reflexivity|].
    change (Spec.required "modify_field") with ["field_name"; "new_value"] in Hloop.
    cbn [for_each] in Hloop. apply bind_Ok_inv in Hloop as ([] & Hname & Hloop).
    apply bind_Ok_inv in Hloop as ([] & Hvalue & _).
    apply check_field_name_Ok in Hname as (f & n & Hf & Hn & Hin).
    rewrite Hf in Hvalue. apply check_present_Ok in Hvalue.
    exists f, n. auto.
  - right. right. right. split; [reflexivity|].
    change (Spec.required "send_additional_packet")
      with ["packet_type"; "packet_content"] in Hloop.
    cbn [for_each] in Hloop. apply bind_Ok_inv in Hloop as ([] & Htype & Hloop).
    apply bind_Ok_inv in Hloop as ([] & Hcontent & _).
    apply check_packet_type_allowed in Htype as (f & t' & Hf & Ht' & Hin).
    rewrite Hf in Hcontent. apply check_present_Ok in Hcontent.
    exists f, t'. auto.
Qed.

Lemma parse_mutation_params_validated
    (json_loads : string → decode_error + value) (format : value → string)
    (param_str : string) (mutation_list : list value) :
  parse_mutation_params json_loads format param_str = Ok mutation_list →
  Forall validated mutation_list.
Proof.
  intros Hparse.
  apply parse_mutation_params_Ok_inv in Hparse as [items Hloop].
  apply (parse_loop_Forall format validated items [] mutation_list);
    [apply parse_entry_validated | constructor | exact Hloop].
Qed.

(** X10.  Whatever the text decodes to, every descriptor of a returned list
    has exactly the keys ["mutation_type"], ["target"] and ["fields"], one of
    the four kinds, target ["client"] or ["server"], and, unless its kind is
    ["identity"], a fields object holding the kind's required parameters,
    with the field name among the allowed field names or the packet type
    among the allowed packet types. *)
Theorem returned_descriptors_are_validated :
  ∀ (json_loads : string → decode_error + value) (format : value → string)
    (param_str : string) (mutation_list : list value),
    parse_mutation_params json_loads format param_str = Ok mutation_list →
    Forall validated mutation_list.
Proof.
  intros json_loads format param_str mutation_list.
  apply parse_mutation_params_validated.
Qed.

Lemma validated_names_allowed (d : value) (name : string) :
  validated d → names_field d name → name ∈ ALLOWED_FIELD_NAMES.
Proof.
  intros (kind & target & fields & -> & _ & Hkind) (k & fs & Hk & Hk' & Hfs & Hname).
  destruct (descriptor_getitem (VStr kind) (VStr target) fields) as (_ & Hk0 & Hf0).
  cbn zeta in Hk0, Hf0. rewrite Hk0 in Hk. rewrite Hf0 in Hfs.
  injection Hk as <-. injection Hfs as <-.
  destruct Hkind as [->|[[-> Hf]|[[-> Hf]|[-> _]]]].
  - destruct Hk' as [Hk'|Hk']; discriminate Hk'.
  - destruct Hf as (f & n & -> & Hn & Hin). cbn [py_getitem] in Hname.
    rewrite Hn in Hname. injection Hname as <-. exact Hin.
  - destruct Hf as (f & n & -> & Hn & Hin & _). cbn [py_getitem] in Hname.
    rewrite Hn in Hname. injection Hname as <-. exact Hin.
  - destruct Hk' as [Hk'|Hk']; discriminate Hk'.
Qed.

(** X11.  With a list the validator returned, neither call changes an
    attribute whose name is outside the allowed field names. *)
Theorem validated_run_stays_in_vocabulary :
  ∀ (json_loads : string → decode_error + value) (format : value → string)
    (param_str : string) (mutation_list : list value) (name : string) (m : message),
    parse_mutation_params json_loads format param_str = Ok mutation_list →
    name ∉ ALLOWED_FIELD_NAMES →
    (mutate_client_hello {| mutation_params := mutation_list |} m).2 !! name = m !! name ∧
    (mutate_server_hello {| mutation_params := mutation_list |} m).2 !! name = m !! name.
Proof.
  intros json_loads format param_str mutation_list name m Hparse Hname.
  pose proof (parse_mutation_params_validated json_loads format param_str
                mutation_list Hparse) as Hvalid.
  rewrite Forall_forall in Hvalid.
  rewrite mutate_client_hello_body, mutate_server_hello_body. cbn [mutation_params].
  split; apply for_each_e_frame.
  - intros d n Hd Hn.
    exact (allowed_not_special n (validated_names_allowed d n (Hvalid d Hd) Hn)).
  - intros d Hd Hnames.
    exact (Hname (validated_names_allowed d name (Hvalid d Hd) Hnames)).
  - intros d n Hd Hn.
    exact (allowed_not_special n (validated_names_allowed d n (Hvalid d Hd) Hn)).
  - intros d Hd Hnames.
    exact (Hname (validated_names_allowed d name (Hvalid d Hd) Hnames)).
Qed.

Lemma parse_entry_not_object (format : value → string) (v : value) :
  (∀ ed, v ≠ VDict ed) → parse_entry format v = Raise AttributeError.
Proof.
  intros Hv. destruct v as [| | | | | |ed]; try reflexivity. destruct (Hv ed eq_refl).
Qed.

(** X12.  A text that decodes, but not to an array of objects, is not
    reported as a [ValueError]: [null], a boolean or a number raises
    [TypeError]; a non-empty object, a non-empty string, and an array whose
    first element is not an object raise [AttributeError]; the empty object
    and the empty string give the empty list. *)
Theorem decoded_non_array_outcomes :
  ∀ (json_loads : string → decode_error + value) (format : value → string)
    (param_str : string) (v : value),
    json_loads param_str = inr v →
    let outcome := parse_mutation_params json_loads format param_str in
    (v = VNone ∨ (∃ b, v = VBool b) ∨ (∃ n, v = VInt n) → outcome = Raise TypeError) ∧
    (∀ d, v = VDict d → d ≠ ∅ → outcome = Raise AttributeError) ∧
    (∀ s, v = VStr s → s ≠ "" → outcome = Raise AttributeError) ∧
    (∀ x rest, v = VList (x :: rest) → (∀ ed, x ≠ VDict ed) →
               outcome = Raise AttributeError) ∧
    (v = VDict ∅ ∨ v = VStr "" ∨ v = VList [] → outcome = Ok []) ∧
    isinstance TypeError cls_ValueError = false ∧
    isinstance AttributeError cls_ValueError = false.
Proof.
  intros json_loads format param_str v Hloads outcome. subst outcome.
  unfold parse_mutation_params. rewrite Hloads. repeat split.
  - intros [->|[[b ->]|[n ->]]]; reflexivity.
  - intros d -> Hd. cbn [py_iter bind].
    destruct (map_to_list d) as [|[k x] l] eqn:Hl.
    + apply map_to_list_empty_iff in Hl. contradiction.
    + reflexivity.
  - intros s -> Hs. destruct s as [|c s]; [contradiction|]. reflexivity.
  - intros x rest -> Hx. cbn [py_iter bind parse_loop].
    rewrite (parse_entry_not_object format x Hx). reflexivity.
  - intros [ -> | [ -> | -> ] ]; reflexivity.
Qed.

Lemma parse_entry_same_reading (format : value → string) (ed1 ed2 : gmap string value) :
  same_reading ed1 ed2 →
  parse_entry format (VDict ed1) = parse_entry format (VDict ed2).
Proof.
  intros (Hm & Ht & Hf). unfold parse_entry. cbn [py_get bind].
  rewrite Hm, Ht, Hf. reflexivity.
Qed.

Lemma parse_loop_same_reading (format : value → string)
    (eds1 eds2 : list (gmap string value)) (acc : list value) :
  Forall2 same_reading eds1 eds2 →
  parse_loop format (VDict <$> eds1) acc = parse_loop format (VDict <$> eds2) acc.
Proof.
  intros Hsame. revert acc.
  induction Hsame as [|ed1 ed2 eds1 eds2 Hed _ IH]; intros acc; [reflexivity|].
  rewrite !fmap_cons. cbn [parse_loop].
  rewrite (parse_entry_same_reading format ed1 ed2 Hed).
  destruct (parse_entry format (VDict ed2)) as [d|e]; [apply IH | reflexivity].
Qed.

(** X13.  Of each entry only ["mutation"], ["target"] and ["fields"] are
    read: two arrays of objects that agree on these three, entry by entry,
    parse to the same result.  Other keys of an entry are ignored and reach no
    descriptor, an absent ["fields"] reads as the empty object, and an absent
    ["mutation"] or ["target"] reads as [None]. *)
Theorem parse_reads_three_keys :
  ∀ (json_loads : string → decode_error + value) (format : value → string)
    (text1 text2 : string) (eds1 eds2 : list (gmap string value)),
    json_loads text1 = inr (VList (VDict <$> eds1)) →
    json_loads text2 = inr (VList (VDict <$> eds2)) →
    Forall2 same_reading eds1 eds2 →
    parse_mutation_params json_loads format text1 =
      parse_mutation_params json_loads format text2.
Proof.
  intros json_loads format text1 text2 eds1 eds2 H1 H2 Hsame.
  unfold parse_mutation_params. rewrite H1, H2. cbn [py_iter bind].
  apply parse_loop_same_reading, Hsame.
Qed.

Lemma parse_loop_entrywise (format : value → string) (entries acc ds : list value) :
  Forall2 (fun v d => parse_entry format v = Ok d) entries ds →
  parse_loop format entries acc = Ok (acc ++ ds)%list.
Proof.
  intros Hall. revert acc.
  induction Hall as [|v d entries ds Hv _ IH]; intros acc; cbn [parse_loop].
  - rewrite app_nil_r. reflexivity.
  - rewrite Hv. cbn [bind]. rewrite IH, <- app_assoc. reflexivity.
Qed.

Lemma parse_loop_Ok_entrywise (format : value → string) (entries acc out : list value) :
  parse_loop format entries acc = Ok out →
  ∃ ds, out = (acc ++ ds)%list ∧
        Forall2 (fun v d => parse_entry format v = Ok d) entries ds.
Proof.
  revert acc. induction entries as [|v entries IH]; intros acc; cbn [parse_loop].
  - intros [= <-]. exists []. rewrite app_nil_r. split; [reflexivity | constructor].
  - intros H. apply bind_Ok_inv in H as (d & Hd & H).
    apply IH in H as (ds & -> & Hds). exists (d :: ds). split.
    + rewrite <- app_assoc. reflexivity.
    + constructor; assumption.
Qed.

Lemma parse_loop_first_failure (format : value → string) (pre post ds acc : list value)
    (v : value) (e : exception) :
  Forall2 (fun v d => parse_entry format v = Ok d) pre ds →
  parse_entry format v = Raise e →
  parse_loop format (pre ++ v :: post) acc = Raise e.
Proof.
  intros Hpre Hv. revert acc.
  induction Hpre as [|w d pre ds Hw _ IH]; intros acc.
  - cbn [app parse_loop]. rewrite Hv. reflexivity.
  - rewrite <- app_comm_cons. cbn [parse_loop]. rewrite Hw. cbn [bind]. apply IH.
Qed.

(** X14.  On any array, whatever its elements, the parse goes entry by
    entry: it returns a list exactly when every element passes the loop body,
    and the list holds their descriptors in order; and when the elements
    before some element pass and that element raises, the parse raises that
    exception, whatever comes after. *)
Theorem parse_is_entrywise :
  ∀ (json_loads : string → decode_error + value) (format : value → string)
    (param_str : string) (entries : list value),
    json_loads param_str = inr (VList entries) →
    (∀ ds, parse_mutation_params json_loads format param_str = Ok ds ↔
           Forall2 (fun v d => parse_entry format v = Ok d) entries ds) ∧
    (∀ pre v post ds e,
        entries = (pre ++ v :: post)%list →
        Forall2 (fun v d => parse_entry format v = Ok d) pre ds →
        parse_entry format v = Raise e →
        parse_mutation_params json_loads format param_str = Raise e).
Proof.
  intros json_loads format param_str entries Hloads.
  unfold parse_mutation_params. rewrite Hloads. cbn [py_iter bind]. split.
  - intros ds. split.
    + intros H. apply parse_loop_Ok_entrywise in H as (ds' & -> & Hds). exact Hds.
    + intros Hds. exact (parse_loop_entrywise format entries [] ds Hds).
  - intros pre v post ds e -> Hpre Hv.
    exact (parse_loop_first_failure format pre post ds [] v e Hpre Hv).
Qed.

(** X15.  An [identity] entry with a valid target is accepted whatever its
    ["fields"] value is, a number or [null] as well as an object, and the
    value is handed on as the descriptor's ["fields"]: the fields are looked
    at only for a kind that requires a parameter. *)
Theorem identity_accepts_any_fields :
  ∀ (json_loads : string → decode_error + value) (format : value → string)
    (param_str : string) (ed : gmap string value) (target : string) (x : value),
    json_loads param_str = inr (VList [VDict ed]) →
    ed !! "mutation" = Some (VStr "identity") →
    ed !! "target" = Some (VStr target) →
    target = "client" ∨ target = "server" →
    ed !! "fields" = Some x →
    parse_mutation_params json_loads format param_str =
      Ok [VDict (<["fields" := x]>
                   (<["target" := VStr target]>
                      (<["mutation_type" := VStr "identity"]> ∅)))].
Proof.
  intros json_loads format param_str ed target x Hloads Hm Ht Htarget Hf.
  unfold parse_mutation_params. rewrite Hloads.
  cbn [py_iter bind parse_loop]. unfold parse_entry. cbn [py_get bind].
  rewrite Hm, Ht, Hf. cbn [default from_option id py_in_keys py_dict_getitem bind].
  rewrite MUTATIONS_FORMAT_lookup.
  rewrite (bool_decide_eq_true_2 ("identity" ∈ Spec.MutationKind))
    by (apply elem_of_cons; left; reflexivity).
  rewrite bool_decide_eq_true_2 by eauto. cbn [negb].
  destruct Htarget as [-> | ->]; reflexivity.
Qed.

(** The first turn of the loop over the required parameters when the fields
    value is not an object. *)
Lemma check_first_parameter_not_object (format : value → string)
    (mutation_type x : value) (p : string) :
  p = "field_name" ∨ p = "packet_type" →
  let missing := ValueError ("Missing required field '" ++ p
                             ++ "' for mutation type '" ++ format mutation_type ++ "'") in
  check_required_field format mutation_type x p =
    match x with
    | VDict f => check_required_field format mutation_type (VDict f) p
    | VStr s => if is_substring p s then Raise TypeError else Raise missing
    | VList l => if existsb (fun y => py_eq_str y p) l then Raise TypeError
                 else Raise missing
    | _ => Raise TypeError
    end.
Proof.
  intros Hp missing. subst missing. unfold check_required_field.
  destruct x as [| | |s| |l|f]; try reflexivity; cbn [py_contains bind].
  - destruct (is_substring p s); cbn [negb]; [|reflexivity].
    destruct Hp as [-> | ->]; reflexivity.
  - destruct (existsb _ l); cbn [negb]; [|reflexivity].
    destruct Hp as [-> | ->]; reflexivity.
Qed.

(** X16.  When the kind requires parameters and the ["fields"] value is not
    an object, the first entry fails before any enum check: with [TypeError]
    for [null], a boolean, a number, for a string that contains the first
    required parameter's name, and for an array that holds it; with the
    missing-parameter [ValueError] for a string or array that does not. *)
Theorem non_object_fields_outcomes :
  ∀ (json_loads : string → decode_error + value) (format : value → string)
    (param_str : string) (ed : gmap string value) (rest : list value)
    (kind target p : string) (req : list string) (x : value),
    json_loads param_str = inr (VList (VDict ed :: rest)) →
    ed !! "mutation" = Some (VStr kind) →
    MUTATIONS_FORMAT !! kind = Some (p :: req) →
    ed !! "target" = Some (VStr target) →
    target = "client" ∨ target = "server" →
    ed !! "fields" = Some x →
    let outcome := parse_mutation_params json_loads format param_str in
    let missing := ValueError ("Missing required field '" ++ p
                               ++ "' for mutation type '" ++ format (VStr kind) ++ "'") in
    (x = VNone ∨ (∃ b, x = VBool b) ∨ (∃ n, x = VInt n) → outcome = Raise TypeError) ∧
    (∀ s, x = VStr s →
          outcome = if is_substring p s then Raise TypeError else Raise missing) ∧
    (∀ l, x = VList l →
          outcome = if existsb (fun y => py_eq_str y p) l then Raise TypeError
                    else Raise missing).
Proof.
  intros json_loads format param_str ed rest kind target p req x
         Hloads Hm Hreq Ht Htarget Hf outcome missing.
  assert (p = "field_name" ∨ p = "packet_type") as Hp.
  { rewrite MUTATIONS_FORMAT_lookup in Hreq.
    destruct (bool_decide (kind ∈ Spec.MutationKind)) eqn:Hkind; [|discriminate].
    apply bool_decide_eq_true in Hkind. unfold Spec.MutationKind in Hkind.
    rewrite !elem_of_cons, elem_of_nil in Hkind.
    destruct Hkind as [->|[->|[->|[->|[]]]]]; vm_compute in Hreq;
      try discriminate; injection Hreq as <- _; auto. }
  assert (outcome =
            match check_required_field format (VStr kind) x p with
            | Ok _ => outcome
            | Raise e => Raise e
            end) as Hout.
  { subst outcome. unfold parse_mutation_params. rewrite Hloads.
    cbn [py_iter bind parse_loop]. unfold parse_entry. cbn [py_get bind].
    rewrite Hm, Ht, Hf. cbn [default from_option id py_in_keys py_dict_getitem bind].
    rewrite Hreq. rewrite bool_decide_eq_true_2 by eauto. cbn [negb].
    replace (py_in_list (VStr target) ["client"; "server"]) with true
      by (destruct Htarget as [-> | ->]; reflexivity).
    cbn [negb bind for_each].
    destruct (check_required_field format (VStr kind) x p) as [[]|e]; reflexivity. }
  rewrite (check_first_parameter_not_object format (VStr kind) x p Hp) in Hout.
  repeat split.
  - intros [->|[[b ->]|[n ->]]]; exact Hout.
  - intros s ->. rewrite Hout. destruct (is_substring p s); reflexivity.
  - intros l ->. rewrite Hout. destruct (existsb _ l); reflexivity.
Qed.

(** X17.  An entry whose ["mutation"] value is an array or an object cannot
    be looked up among the kinds: the parse raises [TypeError], not the
    invalid-kind [ValueError], whatever the rest of the entry holds. *)
Theorem unhashable_kind_raises_type_error :
  ∀ (json_loads : string → decode_error + value) (format : value → string)
    (param_str : string) (ed : gmap string value) (rest : list value) (k : value),
    json_loads param_str = inr (VList (VDict ed :: rest)) →
    ed !! "mutation" = Some k →
    hashable k = false →
    parse_mutation_params json_loads format param_str = Raise TypeError.
Proof.
  intros json_loads format param_str ed rest k Hloads Hm Hk.
  unfold parse_mutation_params. rewrite Hloads.
  cbn [py_iter bind parse_loop]. unfold parse_entry. cbn [py_get bind].
  rewrite Hm. cbn [default from_option id]. destruct k; try discriminate Hk; reflexivity.
Qed.

(** X18.  [main] prints the success line when the test text decodes to the
    two entries it spells and nothing is raised; when the decoder rejects the
    text it prints the error line with the decoder's text and returns
    normally; and an exception leaves [main] only if it is not a
    [ValueError], in which case nothing was printed. *)
Theorem main_reports :
  ∀ (json_loads : string → decode_error + value) (format : value → string)
    (decode_error_text : decode_error → string),
    (json_loads test_param_str = inr scenario_json →
     main json_loads format decode_error_text =
       (["Parsed mutation parameters successfully:"], None)) ∧
    (∀ e, json_loads test_param_str = inl e →
          main json_loads format decode_error_text =
            (["Error parsing mutation parameters: " ++ decode_error_text e], None)) ∧
    (∀ x, (main json_loads format decode_error_text).2 = Some x →
          isinstance x cls_ValueError = false ∧
          (main json_loads format decode_error_text).1 = []).
Proof.
  intros json_loads format decode_error_text. unfold main. split; [|split].
  - intros Hloads.
    assert (parse_mutation_params json_loads format test_param_str
              = Ok [remove_alpn; modify_random]) as ->; [|reflexivity].
    unfold parse_mutation_params. rewrite Hloads. vm_compute. reflexivity.
  - intros e Hloads. unfold parse_mutation_params. rewrite Hloads. reflexivity.
  - intros x.
    destruct (parse_mutation_params json_loads format test_param_str) as [ds|e];
      [discriminate|].
    destruct (isinstance e cls_ValueError) eqn:He; [discriminate|].
    cbn [fst snd]. intros [= <-]. split; [exact He | reflexivity].
Qed.

(** * The further properties on sample data *)

Lemma engine_outcome_depends_on_exposed_fields_witness :
  (mutate_client_hello {| mutation_params := [remove_alpn; modify_cipher_suites] |}
     ((fun _ => VNone) <$> sample_client_hello)).1 =
  (mutate_client_hello {| mutation_params := [remove_alpn; modify_cipher_suites] |}
     sample_client_hello).1.
Proof.
  apply (engine_outcome_depends_on_exposed_fields [remove_alpn; modify_cipher_suites]
           sample_client_hello ((fun _ => VNone) <$> sample_client_hello)).
  apply dom_fmap_L.
Defined.

Lemma scenario_names_allowed_fields : names_allowed_fields [remove_alpn; modify_random].
Proof.
  intros d name Hd (kind & fields & _ & _ & Hfields & Hname).
  rewrite !elem_of_cons, elem_of_nil in Hd.
  destruct Hd as [->|[->|[]]]; vm_compute in Hfields; injection Hfields as <-;
    vm_compute in Hname; injection Hname as <-;
    apply allowed_field_name_decided; reflexivity.
Defined.

Lemma engine_keeps_exposed_fields_witness :
  exposes (mutate_client_hello {| mutation_params := [remove_alpn; modify_random] |}
             sample_client_hello).2 "alpn_protocols" ↔
  exposes sample_client_hello "alpn_protocols".
Proof.
  apply (engine_keeps_exposed_fields [remove_alpn; modify_random] sample_client_hello
           "alpn_protocols" scenario_names_allowed_fields).
Defined.

Lemma descriptor_list_idempotent_witness :
  mutate_client_hello {| mutation_params := [remove_alpn; modify_random] |}
      (mutate_client_hello {| mutation_params := [remove_alpn; modify_random] |}
         sample_client_hello).2 =
    mutate_client_hello {| mutation_params := [remove_alpn; modify_random] |}
      sample_client_hello.
Proof.
  apply (descriptor_list_idempotent [remove_alpn; modify_random] sample_client_hello
           scenario_names_allowed_fields).
Defined.

Lemma engine_leaves_unnamed_fields_witness :
  (mutate_client_hello {| mutation_params := [remove_alpn; modify_random] |}
     sample_client_hello).2 !! "server_name" = sample_client_hello !! "server_name".
Proof.
  apply (engine_leaves_unnamed_fields [remove_alpn; modify_random] "server_name"
           sample_client_hello scenario_names_allowed_fields).
  intros d Hd (kind & fields & _ & _ & Hfields & Hname).
  rewrite !elem_of_cons, elem_of_nil in Hd.
  destruct Hd as [->|[->|[]]]; vm_compute in Hfields; injection Hfields as <-;
    vm_compute in Hname; discriminate Hname.
Defined.

Lemma later_write_wins_witness :
  mutate_client_hello {| mutation_params := [remove_alpn; modify_alpn] |}
      sample_client_hello =
    mutate_client_hello {| mutation_params := [modify_alpn] |} sample_client_hello.
Proof.
  apply (later_write_wins remove_alpn modify_alpn "alpn_protocols" VNone
           (VList [VStr "h2"]) sample_client_hello
           (allowed_field_name_decided "alpn_protocols" eq_refl)).
  - exists (VDict {[ "field_name" := VStr "alpn_protocols" ]}).
    repeat split. left. split; reflexivity.
  - exists (VDict {[ "field_name" := VStr "alpn_protocols";
                     "new_value" := VList [VStr "h2"] ]}).
    repeat split. right. split; reflexivity.
Defined.

Lemma descriptor_without_target_raises_witness :
  mutate_client_hello {| mutation_params := [remove_alpn] ++ VInt 5 :: [modify_alpn] |}
      sample_client_hello =
    (Raise TypeError, <["alpn_protocols" := VNone]> sample_client_hello) ∧
  mutate_server_hello {| mutation_params := [] ++ VDict ∅ :: [modify_random] |}
      sample_server_hello =
    (Raise (KeyError (VStr "target")), sample_server_hello).
Proof.
  split.
  - apply (descriptor_without_target_raises [remove_alpn] [modify_alpn] (VInt 5)
             sample_client_hello (<["alpn_protocols" := VNone]> sample_client_hello) I).
    vm_compute. reflexivity.
  - apply (descriptor_without_target_raises [] [modify_random] (VDict ∅)
             sample_server_hello sample_server_hello (lookup_empty _)).
    reflexivity.
Defined.

Lemma incomplete_fields_raise_witness :
  mutate_client_hello {| mutation_params := [modify_without_value] |} sample_client_hello
    = (Raise (KeyError (VStr "new_value")), sample_client_hello).
Proof.
  destruct (incomplete_fields_raise modify_without_value "modify_field"
              {[ "field_name" := VStr "random" ]} sample_client_hello eq_refl eq_refl)
    as [Hclient _].
  destruct (Hclient eq_refl) as (_ & Hvalue & _).
  apply Hvalue; [reflexivity | vm_compute; eauto | reflexivity].
Defined.

Lemma returned_descriptors_are_validated_witness :
  Forall validated [remove_alpn; modify_random].
Proof.
  apply (returned_descriptors_are_validated sample_loads sample_format scenario_text).
  vm_compute. reflexivity.
Defined.

Lemma validated_run_stays_in_vocabulary_witness :
  (mutate_server_hello {| mutation_params := [remove_alpn; modify_random] |}
     sample_server_hello).2 !! "cipher_suite" = sample_server_hello !! "cipher_suite".
Proof.
  apply (validated_run_stays_in_vocabulary sample_loads sample_format scenario_text
           [remove_alpn; modify_random] "cipher_suite" sample_server_hello).
  - vm_compute. reflexivity.
  - unfold ALLOWED_FIELD_NAMES. rewrite !elem_of_cons, elem_of_nil.
    intros H. repeat (destruct H as [H|H]; [discriminate H|]). exact H.
Defined.

Lemma decoded_non_array_outcomes_witness :
  parse_mutation_params (loads_as (VInt 5)) sample_format "5" = Raise TypeError ∧
  parse_mutation_params (loads_as (VList [VInt 5])) sample_format "[5]"
    = Raise AttributeError.
Proof.
  split.
  - destruct (decoded_non_array_outcomes (loads_as (VInt 5)) sample_format "5"
                (VInt 5) eq_refl) as (Hscalar & _).
    apply Hscalar. right. right. eauto.
  - destruct (decoded_non_array_outcomes (loads_as (VList [VInt 5])) sample_format "[5]"
                (VList [VInt 5]) eq_refl) as (_ & _ & _ & Harray & _).
    apply (Harray (VInt 5) []); [reflexivity | discriminate].
Defined.

Lemma parse_reads_three_keys_witness :
  parse_mutation_params
      (fun s => if bool_decide (s = "first") then inr (VList [VDict identity_with_comment])
                else inr (VList [VDict identity_plain]))
      sample_format "first" =
    parse_mutation_params
      (fun s => if bool_decide (s = "first") then inr (VList [VDict identity_with_comment])
                else inr (VList [VDict identity_plain]))
      sample_format "second".
Proof.
  apply (parse_reads_three_keys _ sample_format "first" "second"
           [identity_with_comment] [identity_plain]);
    [reflexivity | reflexivity |].
  constructor; [|constructor]. repeat split.
Defined.

Lemma parse_is_entrywise_witness :
  parse_mutation_params sample_loads sample_format several_errors_text
    = Raise (ValueError "Invalid mutation type: bogus").
Proof.
  destruct (parse_is_entrywise sample_loads sample_format several_errors_text
              several_errors_wire) as [_ Hfirst]; [vm_compute; reflexivity|].
  apply (Hfirst [wire_entry "identity" "server" ∅]
           (wire_entry "bogus" "peer" {[ "field_name" := VStr "not_a_real_field" ]})
           [wire_entry "send_additional_packet" "client"
              {[ "packet_type" := VStr "HelloRetry" ]}]
           [descriptor "identity" "server" ∅]).
  - reflexivity.
  - constructor; [vm_compute; reflexivity | constructor].
  - vm_compute. reflexivity.
Defined.

Lemma identity_accepts_any_fields_witness :
  parse_mutation_params (loads_as (VList [VDict identity_numeric_fields])) sample_format
      "[]" =
    Ok [VDict (<["fields" := VInt 5]>
                 (<["target" := VStr "server"]>
                    (<["mutation_type" := VStr "identity"]> ∅)))].
Proof.
  apply (identity_accepts_any_fields (loads_as (VList [VDict identity_numeric_fields]))
           sample_format "[]" identity_numeric_fields "server" (VInt 5));
    try reflexivity.
  right. reflexivity.
Defined.

Lemma non_object_fields_outcomes_witness :
  parse_mutation_params (loads_as (VList [VDict remove_string_fields])) sample_format
      "[]" = Raise TypeError.
Proof.
  destruct (non_object_fields_outcomes (loads_as (VList [VDict remove_string_fields]))
              sample_format "[]" remove_string_fields [] "remove_field" "client"
              "field_name" [] (VStr "no field_name here")
              eq_refl eq_refl eq_refl eq_refl (or_introl eq_refl) eq_refl)
    as (_ & Hstring & _).
  exact (Hstring "no field_name here" eq_refl).
Defined.

Lemma unhashable_kind_raises_type_error_witness :
  parse_mutation_params (loads_as (VList [VDict list_kind_entry])) sample_format "[]"
    = Raise TypeError.
Proof.
  apply (unhashable_kind_raises_type_error (loads_as (VList [VDict list_kind_entry]))
           sample_format "[]" list_kind_entry [] (VList [VStr "identity"]));
    reflexivity.
Defined.

Lemma main_reports_witness :
  main demo_loads sample_format sample_decode_error_text
    = (["Parsed mutation parameters successfully:"], None) ∧
  main sample_loads sample_format sample_decode_error_text
    = (["Error parsing mutation parameters: Expecting value"], None).
Proof.
  split.
  - apply (main_reports demo_loads sample_format sample_decode_error_text).
    vm_compute. reflexivity.
  - destruct (main_reports sample_loads sample_format sample_decode_error_text)
      as (_ & Hrejected & _).
    apply (Hrejected (DecodeError "Expecting value" test_param_str 0)).
    vm_compute. reflexivity.
Defined.

Lemma special_attributes_are_not_bound_witness :
  mutate_client_hello {| mutation_params := [remove_class] |} sample_client_hello
    = (Raise TypeError, sample_client_hello).
Proof.
  destruct (special_attributes_are_not_bound remove_class "__class__" VNone
              sample_client_hello) as [Hclient _].
  destruct Hclient as (Hclass & _).
  - exists (VDict {[ "field_name" := VStr "__class__" ]}).
    repeat split. left. split; reflexivity.
  - apply Hclass. reflexivity.
Defined.
